(** * NII stress-test dashboards: a shallow embedding of the engine code

    The repository holds four evolutions of one Streamlit script
    ([corp.py], [corp2.py], [corp3.py], [corp_fin.py]).  Each script reads
    balances and a yield curve, then computes net interest income (NII),
    a per-tenor waterfall, a rate/volume/mix attribution and a repricing
    gap with a DV01 table.

    Numbers are modelled as exact rationals [Q] (the scripts use Python
    floats; rounding error of the float operations is not modelled, and
    equalities between computed numbers are stated with [==]).  Python
    dicts are insertion-ordered association lists, pandas frames are lists
    of rows, pandas Series carry their index labels, and a failing dict
    subscript is an explicit [KeyError]. *)

From Stdlib Require Import QArith ZArith List String Bool Lia Qround.
From Stdlib Require Import Setoid Morphisms.
From Stdlib Require Import Lqa.
Import ListNotations.

Local Open Scope string_scope.
Local Open Scope list_scope.
Local Open Scope Q_scope.

(* ===================================================================== *)
(** ** Python values shared by the four scripts *)
(* ===================================================================== *)

Module Py.

(** Outcome of a computation that may raise [KeyError]. *)
Inductive result (A : Type) : Type :=
| Ok (a : A)
| KeyError (k : string).
Arguments Ok {A} a.
Arguments KeyError {A} k.

Definition bind {A B : Type} (m : result A) (f : A -> result B) : result B :=
  match m with
  | Ok a => f a
  | KeyError k => KeyError k
  end.

Definition fmap {A B : Type} (f : A -> B) (m : result A) : result B :=
  bind m (fun a => Ok (f a)).

Fixpoint mapM {A B : Type} (f : A -> result B) (l : list A) : result (list B) :=
  match l with
  | [] => Ok []
  | x :: tl =>
      bind (f x) (fun y => bind (mapM f tl) (fun ys => Ok (y :: ys)))
  end.

(** A dict: keys in insertion order, at most one entry per key. *)
Definition dict (V : Type) : Type := list (string * V).

Fixpoint lookup {V : Type} (d : dict V) (k : string) : option V :=
  match d with
  | [] => None
  | (k', v) :: tl => if String.eqb k k' then Some v else lookup tl k
  end.

(** [d[k]] *)
Definition getitem {V : Type} (d : dict V) (k : string) : result V :=
  match lookup d k with
  | Some v => Ok v
  | None => KeyError k
  end.

(** [d.get(k, dflt)] *)
Definition get {V : Type} (d : dict V) (k : string) (dflt : V) : V :=
  match lookup d k with
  | Some v => v
  | None => dflt
  end.

(** [d[k] = v]: an existing key keeps its place, a new key goes last. *)
Fixpoint setitem {V : Type} (d : dict V) (k : string) (v : V) : dict V :=
  match d with
  | [] => [(k, v)]
  | (k', v') :: tl =>
      if String.eqb k k' then (k', v) :: tl else (k', v') :: setitem tl k v
  end.

Definition keys {V : Type} (d : dict V) : list string := map fst d.
Definition items {V : Type} (d : dict V) : list (string * V) := d.

(** [{k: f(k) for k in ks}] where evaluating [f] may raise. *)
Fixpoint dict_comp {V : Type} (f : string -> result V) (ks : list string)
    (acc : dict V) : result (dict V) :=
  match ks with
  | [] => Ok acc
  | k :: tl => bind (f k) (fun v => dict_comp f tl (setitem acc k v))
  end.

(** [{k: f(k, v) for k, v in d.items()}] with a total [f]. *)
Definition dict_map_items {V W : Type} (f : string -> V -> W) (d : dict V)
    : dict W :=
  fold_left (fun acc kv => setitem acc (fst kv) (f (fst kv) (snd kv))) (items d) [].

(** Builtin [sum] and [Series.sum]: left to right from 0. *)
Definition qsum (l : list Q) : Q := fold_left Qplus l 0.

(** [round(x, 2)] taken on the exact value: the nearest hundredth, a tie
    going to the even neighbour.  The scripts round the binary float, which
    at a tie of the exact value lies a hair to one side or the other, so
    the hundredth a script shows there may be either neighbour: what is
    stated of a displayed value below is a bound that holds for both, or an
    evaluation away from any tie. *)
Definition round_half_even (q : Q) : Z :=
  let f := Qfloor q in
  match Qcompare (q - inject_Z f) (1 # 2) with
  | Lt => f
  | Gt => (f + 1)%Z
  | Eq => if Z.even f then f else (f + 1)%Z
  end.

Definition round2 (q : Q) : Q := inject_Z (round_half_even (q * 100)) / 100.

(** [round(x, n)] taken on the exact value, in the same way. *)
Definition round_n (digits : nat) (q : Q) : Q :=
  inject_Z (round_half_even (q * inject_Z (10 ^ Z.of_nat digits)))
  / inject_Z (10 ^ Z.of_nat digits).

(** Builtin [max(a, b)]: [b] only when it is greater than [a]. *)
Definition pymax (a b : Q) : Q := if Qlt_le_dec a b then b else a.

End Py.

Import Py.

Notation "x <- m ;; k" := (Py.bind m (fun x => k))
  (at level 61, m at next level, right associativity).

(** One line item of a balance sheet frame: columns Type, Balance, Code. *)
Record row : Type := mkRow {
  Type_ : string;
  Balance : Q;
  Code : string
}.

Definition sheet : Type := list row.

(** A frame returned by the income/expense helper: the input columns,
    the rate in percent, and the new column named by [Field]. *)
Record calc_row : Type := mkCalc {
  src : row;
  Rate_pct : Q;
  Field : string;
  Amount : Q
}.

Definition column_sum (df : list calc_row) : Q := qsum (map Amount df).
Definition balance_sum (s : sheet) : Q := qsum (map Balance s).

(** The tenor codes and their labels, the same in all four scripts. *)
Definition yield_codes : list string := ["GS3M"; "GS1"; "GS5"; "GS10"].
Definition yield_labels : dict string :=
  [("GS3M", "3M"); ("GS1", "1Y"); ("GS5", "5Y"); ("GS10", "10Y")].

(** Every balance of a sheet multiplied by [k]. *)
Definition scale (k : Q) (s : sheet) : sheet :=
  map (fun r => mkRow (Type_ r) (k * Balance r) (Code r)) s.

(** One bar of a waterfall chart: columns Maturity, Start, End, ΔNII. *)
Record step : Type := mkStep {
  Maturity : string;
  Start : Q;
  End_ : Q;
  dNII : Q
}.

(* ===================================================================== *)
(** ** The waterfall frame built with cumsum and shift *)
(* ===================================================================== *)

Module Frame.

(** [Series.cumsum()] *)
Fixpoint cumsum_from (acc : Q) (l : list Q) : list Q :=
  match l with
  | [] => []
  | x :: tl => (acc + x) :: cumsum_from (acc + x) tl
  end.

Definition cumsum (l : list Q) : list Q :=
  match l with
  | [] => []
  | x :: tl => x :: cumsum_from x tl
  end.

(** [Series.shift(fill_value=0)]: one place down, the last value dropped. *)
Definition shift (l : list Q) : list Q :=
  match l with
  | [] => []
  | _ :: _ => 0 :: removelast l
  end.

(** The frame [wf]: rows Baseline, the per-tenor rows, Total; then the
    columns [Start = ΔNII.cumsum().shift(fill_value=0)] and
    [End = Start + ΔNII]. *)
Definition waterfall_frame (deltas : list (string * Q)) (total : Q)
    : list step :=
  let rows := [("Baseline", 0)] ++ deltas ++ [("Total", total)] in
  let starts := shift (cumsum (map snd rows)) in
  map (fun p => mkStep (fst (fst p)) (snd p) (snd p + snd (fst p)) (snd (fst p)))
      (combine rows starts).

(** The loop that fills [deltas] and the two running sums (corp3.py lines
    199-208, corp_fin.py lines 215-220). *)
Fixpoint delta_loop (balances yields_current shifted : dict Q)
    (labels : list (string * string))
    (deltas : list (string * Q)) (b0_sum b1_sum : Q)
    : result (list (string * Q) * Q * Q) :=
  match labels with
  | [] => Ok (deltas, b0_sum, b1_sum)
  | (c, label) :: tl =>
      bal <- getitem balances label ;;
      r0 <- getitem yields_current c ;;
      r1 <- getitem shifted c ;;
      let i0 := bal * r0 in
      let i1 := bal * r1 in
      delta_loop balances yields_current shifted tl
                 (deltas ++ [(label, round2 (i1 - i0))])
                 (b0_sum + i0) (b1_sum + i1)
  end.

(** [balances = {'3M':cash,'1Y':deposits,'5Y':loans,'10Y':bonds}] *)
Definition balances (cash deposits loans bonds : Q) : dict Q :=
  [("3M", cash); ("1Y", deposits); ("5Y", loans); ("10Y", bonds)].

Definition waterfall (cash deposits loans bonds : Q)
    (yields_current shifted : dict Q) : result (list step) :=
  st <- delta_loop (balances cash deposits loans bonds) yields_current shifted
                   (items yield_labels) [] 0 0 ;;
  let '(deltas, b0_sum, b1_sum) := st in
  Ok (waterfall_frame deltas (round2 (b1_sum - b0_sum))).

End Frame.

(* ===================================================================== *)
(** ** corp.py *)
(* ===================================================================== *)

Module Corp.

(** [calculate(sheet, ylds, field)], lines 83-87: an absent code reads as
    rate 0 through [ylds.get(c, 0)]. *)
Definition calculate (sh : sheet) (ylds : dict Q) (field : string)
    : list calc_row :=
  map (fun r =>
         let rate := get ylds (Code r) 0 * 100 in
         mkCalc r rate field (Balance r * rate / 100)) sh.

(** [shifted = {c: r+shift for c,r in yields_current.items()}], line 89. *)
Definition shifted (yields_current : dict Q) (shift : Q) : dict Q :=
  dict_map_items (fun _ r => r + shift) yields_current.

Definition income (assets : sheet) (ylds : dict Q) : Q :=
  column_sum (calculate assets ylds "Income").

Definition expense (liabilities : sheet) (ylds : dict Q) : Q :=
  column_sum (calculate liabilities ylds "Expense").

(** [ii = a_calc['Income'].sum() - l_calc['Expense'].sum()], lines 90-92. *)
Definition ii (assets liabilities : sheet) (ylds : dict Q) : Q :=
  income assets ylds - expense liabilities ylds.

(** [preset], lines 43-49. *)
Definition preset : dict Q :=
  [("Baseline (0 bp)", 0); ("Adverse (-100 bp)", -1 # 100);
   ("Severely Adverse (-250 bp)", -25 # 1000);
   ("Rate Hike Shock (+100 bp)", 1 # 100); ("Extreme Hike (+200 bp)", 2 # 100)].

(** [shift], lines 42 and 51: the slider value in bp over 10000, or the
    preset of the chosen scenario. *)
Definition shift (scenario_name : string) (slider : Z) : result Q :=
  if String.eqb scenario_name "Custom" then Ok (inject_Z slider / 10000)
  else getitem preset scenario_name.

(** The scenario table [sc_df], lines 110-114, over any preset table. *)
Definition sc_df_for (pre : dict Q) (assets liabilities : sheet)
    (yields_current : dict Q) : list (string * Q) :=
  map (fun nv =>
         let sy := shifted yields_current (snd nv) in
         (fst nv, round2 (ii assets liabilities sy))) (items pre).

Definition sc_df (assets liabilities : sheet) (yields_current : dict Q)
    : list (string * Q) :=
  sc_df_for preset assets liabilities yields_current.

End Corp.

(* ===================================================================== *)
(** ** corp2.py *)
(* ===================================================================== *)

Module Corp2.

(** [reg_preset], lines 49-54: each shock is keyed by ['all'] or by label. *)
Definition reg_preset : dict (dict Q) :=
  [("Parallel +200 bp", [("all", 2 # 100)]);
   ("Curve Twist", [("3M", 2 # 100); ("1Y", 1 # 100); ("5Y", -1 # 100); ("10Y", -2 # 100)]);
   ("Steepener", [("3M", -1 # 100); ("1Y", 0); ("5Y", 1 # 100); ("10Y", 2 # 100)]);
   ("Flattener", [("3M", 1 # 100); ("1Y", 2 # 100); ("5Y", -1 # 100); ("10Y", -2 # 100)])].

(** One entry of the shocked curve for a preset shock, lines 68-71. *)
Definition shocked_entry (yields_current shock : dict Q) (c : string)
    : result Q :=
  match lookup shock "all" with
  | Some _ =>
      y <- getitem yields_current c ;;
      a <- getitem shock "all" ;;
      Ok (y + a)
  | None =>
      y <- getitem yields_current c ;;
      lbl <- getitem yield_labels c ;;
      Ok (y + get shock lbl 0)
  end.

(** The shift map of lines 62-71 (it holds shifted yields, not shifts). *)
Definition shifts (scenario : string) (yields_current : dict Q) (bps_shift : Q)
    : result (dict Q) :=
  if String.eqb scenario "Custom" then
    dict_comp (fun c => y <- getitem yields_current c ;; Ok (y + bps_shift))
              yield_codes []
  else
    shock <- getitem reg_preset scenario ;;
    dict_comp (shocked_entry yields_current shock) yield_codes [].

(** [calculate(df, yield_map, field)], lines 96-100: an absent code reads
    as rate 0 through [yield_map.get(c, 0)]. *)
Definition calculate (df : sheet) (yield_map : dict Q) (field : string)
    : list calc_row :=
  map (fun r =>
         let rate := get yield_map (Code r) 0 * 100 in
         mkCalc r rate field (Balance r * rate / 100)) df.

(** Lines 103-109, for either curve. *)
Definition nii (assets liabilities : sheet) (yield_map : dict Q) : Q :=
  column_sum (calculate assets yield_map "Income")
  - column_sum (calculate liabilities yield_map "Expense").

(** [df.loc[df.Code==c,'Balance'].sum()] *)
Definition balance_at (df : sheet) (c : string) : Q :=
  qsum (map Balance (filter (fun r => String.eqb (Code r) c) df)).

(** [net_bal], lines 163-166. *)
Definition net_bal (assets liabilities : sheet) : result (dict Q) :=
  dict_comp (fun c => Ok (balance_at assets c - balance_at liabilities c))
            yield_codes [].

(** The loop of lines 170-173, threading the list [wf] and [cum]. *)
Fixpoint wf_loop (nb shifts yields_current : dict Q) (codes : list string)
    (wf : list step) (cum : Q) : result (list step * Q) :=
  match codes with
  | [] => Ok (wf, cum)
  | c :: tl =>
      n <- getitem nb c ;;
      s <- getitem shifts c ;;
      y <- getitem yields_current c ;;
      let delta := n * (s - y) in
      lbl <- getitem yield_labels c ;;
      wf_loop nb shifts yields_current tl
              (wf ++ [mkStep lbl cum (cum + delta) (round2 delta)])
              (cum + delta)
  end.

(** The waterfall rows of lines 167-174. *)
Definition wf (assets liabilities : sheet) (shifts yields_current : dict Q)
    : result (list step) :=
  nb <- net_bal assets liabilities ;;
  st <- wf_loop nb shifts yields_current yield_codes
                [mkStep "Baseline" 0 0 0] 0 ;;
  let (rows, cum) := st in
  Ok (rows ++ [mkStep "Total" 0 cum (round2 cum)]).


(** [reg_results], lines 122-133, over any table of shocks. *)
Definition reg_results_for (presets : dict (dict Q)) (assets liabilities : sheet)
    (yields_current : dict Q) : result (list (string * Q)) :=
  mapM (fun ns =>
          ym <- dict_comp (shocked_entry yields_current (snd ns)) yield_codes [] ;;
          Ok (fst ns, round2 (nii assets liabilities ym))) (items presets).

Definition reg_results (assets liabilities : sheet) (yields_current : dict Q)
    : result (list (string * Q)) :=
  reg_results_for reg_preset assets liabilities yields_current.

End Corp2.

(** The six sidebar balances of corp.py, corp3.py and corp_fin.py. *)
Record inputs : Type := mkInputs {
  loans : Q; bonds : Q; cash : Q; deposits : Q; borrow : Q; corp : Q
}.

Definition assets_of (i : inputs) : sheet :=
  [mkRow "Loans" (loans i) "GS5"; mkRow "Bonds" (bonds i) "GS10";
   mkRow "Cash" (cash i) "GS3M"].

Definition liabs_of (i : inputs) : sheet :=
  [mkRow "Deposits" (deposits i) "GS1"; mkRow "Short Borrow" (borrow i) "GS3M";
   mkRow "Corp Bonds" (corp i) "GS3M"].

(* ===================================================================== *)
(** ** corp3.py *)
(* ===================================================================== *)

Module Corp3.

(** [calc(sheet, yields_map, fld)], lines 117-121: the subscript
    [yields_map[c]] raises [KeyError] on the first row whose code is absent. *)
Definition calc (sh : sheet) (yields_map : dict Q) (fld : string)
    : result (list calc_row) :=
  mapM (fun r =>
          y <- getitem yields_map (Code r) ;;
          let rate := y * 100 in
          Ok (mkCalc r rate fld (Balance r * rate / 100))) sh.

(** [macro_scenarios[...]["shifts"]], lines 57-75. *)
Definition macro_shifts : dict (dict Q) :=
  [("Baseline", map (fun c => (c, 0)) yield_codes);
   ("Adverse", map (fun c => (c, -1 # 100)) yield_codes);
   ("Severely Adverse", map (fun c => (c, -25 # 1000)) yield_codes)].

(** [shifts_map], lines 82-85. *)
Definition shifts_map (macro_choice : string) (base_shift : Q)
    : result (dict Q) :=
  if String.eqb macro_choice "Baseline" then
    dict_comp (fun _ => Ok base_shift) yield_codes []
  else getitem macro_shifts macro_choice.

(** [shifted = {c: yields_current[c] + shifts_map[c] for c in yield_codes}] *)
Definition shifted (yields_current sm : dict Q) : result (dict Q) :=
  dict_comp (fun c =>
               y <- getitem yields_current c ;;
               s <- getitem sm c ;;
               Ok (y + s)) yield_codes [].

(** [nii = a_calc['Income'].sum() - l_calc['Expense'].sum()], lines 126-128. *)
Definition nii (assets liabs : sheet) (yields_map : dict Q) : result Q :=
  a_calc <- calc assets yields_map "Income" ;;
  l_calc <- calc liabs yields_map "Expense" ;;
  Ok (column_sum a_calc - column_sum l_calc).

(** The waterfall of lines 193-213. *)
Definition wf (i : inputs) (yields_current shifted : dict Q)
    : result (list step) :=
  Frame.waterfall (cash i) (deposits i) (loans i) (bonds i)
                  yields_current shifted.


(** [preset], lines 41-47. *)
Definition preset : dict Q :=
  [("Baseline (0 bp)", 0); ("Adverse (-100 bp)", -1 # 100);
   ("Severely Adverse (-250 bp)", -25 # 1000);
   ("Rate Hike Shock (+100 bp)", 1 # 100); ("Extreme Hike (+200 bp)", 2 # 100)].

(** [base_shift], lines 40 and 52-53. *)
Definition base_shift (scenario_name : string) (slider : Z) : result Q :=
  if String.eqb scenario_name "Custom" then Ok (inject_Z slider / 10000)
  else getitem preset scenario_name.

(** The stressed NII of lines 82-85 and 124-128, from the two sidebar
    choices. *)
Definition stressed (macro_choice : string) (base_shift : Q)
    (assets liabs : sheet) (yields_current : dict Q) : result Q :=
  sm <- shifts_map macro_choice base_shift ;;
  sh <- shifted yields_current sm ;;
  nii assets liabs sh.

(** The rate-shock table [rs], lines 150-154 (corp_fin.py lines 169-173),
    over any preset table. *)
Definition rs_for (pre : dict Q) (assets liabs : sheet) (yields_current : dict Q)
    : result (list (string * Q)) :=
  mapM (fun nb =>
          m <- dict_comp (fun c => y <- getitem yields_current c ;;
                                   Ok (y + snd nb)) yield_codes [] ;;
          ni <- nii assets liabs m ;;
          Ok (fst nb, round2 ni)) (items pre).

Definition rs (assets liabs : sheet) (yields_current : dict Q)
    : result (list (string * Q)) :=
  rs_for preset assets liabs yields_current.

(** The regulatory table [ms], lines 164-168 (corp_fin.py lines 183-187). *)
Definition ms (assets liabs : sheet) (yields_current : dict Q)
    : result (list (string * Q)) :=
  mapM (fun ni =>
          m <- dict_comp (fun c => y <- getitem yields_current c ;;
                                   s <- getitem (snd ni) c ;;
                                   Ok (y + s)) yield_codes [] ;;
          v <- nii assets liabs m ;;
          Ok (fst ni, round2 v)) (items macro_shifts).

End Corp3.

(* ===================================================================== *)
(** ** pandas Series with index labels *)
(* ===================================================================== *)

Module Pandas.

(** A cell holds a number or NaN, the missing-value marker. *)
Definition cell : Type := option Q.

Definition cell_op (f : Q -> Q -> Q) (a b : cell) : cell :=
  match a, b with
  | Some x, Some y => Some (f x y)
  | _, _ => None
  end.

Section Labelled.

Variable L : Type.
Variable eqb : L -> L -> bool.
Variable leb : L -> L -> bool.

(** A Series: its index labels, in order, each with its cell. *)
Definition series : Type := list (L * cell).

Definition index (s : series) : list L := map fst s.

Fixpoint loc (s : series) (l : L) : option cell :=
  match s with
  | [] => None
  | (l', c) :: tl => if eqb l l' then Some c else loc tl l
  end.

Fixpoint unique (ls : list L) : list L :=
  match ls with
  | [] => []
  | x :: tl => x :: filter (fun y => negb (eqb y x)) (unique tl)
  end.

Fixpoint insert_sorted (x : L) (ls : list L) : list L :=
  match ls with
  | [] => [x]
  | y :: tl => if leb x y then x :: y :: tl else y :: insert_sorted x tl
  end.

Definition sort (ls : list L) : list L := fold_right insert_sorted [] ls.

Fixpoint index_eqb (a b : list L) : bool :=
  match a, b with
  | [], [] => true
  | x :: a', y :: b' => eqb x y && index_eqb a' b'
  | _, _ => false
  end.

(** [Index.union]: the labels of both sides, sorted unless one side is
    empty. *)
Definition union (a b : list L) : list L :=
  match a, b with
  | [], _ => b
  | _, [] => a
  | _, _ => sort (unique (a ++ b))
  end.

(** [Series.reindex(labels)]: a label without a row reads NaN. *)
Definition reindex (labels : list L) (s : series) : series :=
  map (fun l => (l, match loc s l with Some c => c | None => None end)) labels.

(** A binary operator between two Series aligns them on their labels:
    row by row when the indexes are equal, otherwise over the union of
    the labels, NaN where a side has no row. *)
Definition align_op (f : Q -> Q -> Q) (a b : series) : series :=
  if index_eqb (index a) (index b) then
    map (fun p => (fst (fst p), cell_op f (snd (fst p)) (snd (snd p))))
        (combine a b)
  else
    let labels := union (index a) (index b) in
    map (fun p => (fst (fst p), cell_op f (snd (fst p)) (snd (snd p))))
        (combine (reindex labels a) (reindex labels b)).

(** A Series with a scalar on the right, and on the left. *)
Definition scalar_r (f : Q -> Q -> Q) (a : series) (q : Q) : series :=
  map (fun p => (fst p, cell_op f (snd p) (Some q))) a.

Definition scalar_l (f : Q -> Q -> Q) (q : Q) (b : series) : series :=
  map (fun p => (fst p, cell_op f (Some q) (snd p))) b.

(** [Series.fillna(q)] gives plain numbers. *)
Definition fillna (q : Q) (s : series) : list (L * Q) :=
  map (fun p => (fst p, match snd p with Some x => x | None => q end)) s.

End Labelled.

Arguments index {L} s.
Arguments index_eqb {L} eqb a b.
Arguments loc {L} eqb s l.
Arguments unique {L} eqb ls.
Arguments insert_sorted {L} leb x ls.
Arguments sort {L} leb ls.
Arguments union {L} eqb leb a b.
Arguments reindex {L} eqb labels s.
Arguments align_op {L} eqb leb f a b.
Arguments scalar_r {L} f a q.
Arguments scalar_l {L} f q b.
Arguments fillna {L} q s.

(** What an expression over a column may evaluate to: a Python number or
    a Series labelled by row number. *)
Inductive value : Type :=
| Num (q : Q)
| Ser (s : series nat).

Definition value_op (f : Q -> Q -> Q) (a b : value) : value :=
  match a, b with
  | Num x, Num y => Num (f x y)
  | Num x, Ser s => Ser (scalar_l f x s)
  | Ser s, Num y => Ser (scalar_r f s y)
  | Ser s, Ser t => Ser (align_op Nat.eqb Nat.leb f s t)
  end.

Definition vadd : value -> value -> value := value_op Qplus.
Definition vsub : value -> value -> value := value_op Qminus.

(** Builtin [sum] over values: [0 + v1 + v2 + ...]. *)
Definition py_sum (l : list value) : value := fold_left vadd l (Num 0).

(** [a == b] read as one truth value: every compared cell is equal; NaN
    equals nothing, itself included, and two Series compare only when
    identically labelled. *)
Definition cell_eqb (a b : cell) : bool :=
  match a, b with
  | Some x, Some y => Qeq_bool x y
  | _, _ => false
  end.

Definition all_equal (a b : value) : bool :=
  match a, b with
  | Num x, Num y => Qeq_bool x y
  | Num x, Ser s => forallb (fun p => cell_eqb (Some x) (snd p)) s
  | Ser s, Num y => forallb (fun p => cell_eqb (snd p) (Some y)) s
  | Ser s, Ser t =>
      index_eqb Nat.eqb (index s) (index t)
      && forallb (fun p => cell_eqb (snd (fst p)) (snd (snd p))) (combine s t)
  end.

End Pandas.

(* ===================================================================== *)
(** ** corp_fin.py *)
(* ===================================================================== *)

Module CorpFin.

Import Pandas.

(** [calc(sheet, yields_map, fld)], lines 142-146. *)
Definition calc (sh : sheet) (yields_map : dict Q) (fld : string)
    : result (list calc_row) :=
  mapM (fun r =>
          y <- getitem yields_map (Code r) ;;
          let rate := y * 100 in
          Ok (mkCalc r rate fld (Balance r * rate / 100))) sh.

(** [shifted], line 148. *)
Definition shifted (yields_current shifts_map : dict Q) : result (dict Q) :=
  dict_comp (fun c =>
               y <- getitem yields_current c ;;
               s <- getitem shifts_map c ;;
               Ok (y + s)) yield_codes [].

(** [stressed_nii], lines 149-151, for any curve. *)
Definition stressed_nii (assets liabs : sheet) (yields_map : dict Q)
    : result Q :=
  a_calc <- calc assets yields_map "Income" ;;
  l_calc <- calc liabs yields_map "Expense" ;;
  Ok (column_sum a_calc - column_sum l_calc).

(** The frame [wf1], lines 213-223. *)
Definition wf1 (i : inputs) (yields_current shifted : dict Q)
    : result (list step) :=
  Frame.waterfall (cash i) (deposits i) (loans i) (bonds i)
                  yields_current shifted.

(** *** P&L explain, lines 233-276 *)

(** A row of [start_df] / [end_df], kept with its row label. *)
Record prow : Type := mkProw {
  pType : string;
  B0 : Q;
  B1 : Q;
  pCode : string;
  BU : string
}.

Definition pframe : Type := list (nat * prow).

Definition bu_map : dict string :=
  [("Loans", "Corporate"); ("Bonds", "Corporate"); ("Cash", "Corporate");
   ("Deposits", "Retail"); ("Short Borrow", "Corporate");
   ("Corp Bonds", "Corporate")].

(** [make_sheet(b0, b1)]: the two six-entry lists are given as records of
    their entries, in the order loans, bonds, cash, deposits, borrow, corp. *)
Definition make_sheet (b0 b1 : inputs) : result pframe :=
  bl <- getitem bu_map "Loans" ;;
  bb <- getitem bu_map "Bonds" ;;
  bc <- getitem bu_map "Cash" ;;
  bd <- getitem bu_map "Deposits" ;;
  bs <- getitem bu_map "Short Borrow" ;;
  bk <- getitem bu_map "Corp Bonds" ;;
  Ok [(0%nat, mkProw "Loans" (loans b0) (loans b1) "GS5" bl);
      (1%nat, mkProw "Bonds" (bonds b0) (bonds b1) "GS10" bb);
      (2%nat, mkProw "Cash" (cash b0) (cash b1) "GS3M" bc);
      (3%nat, mkProw "Deposits" (deposits b0) (deposits b1) "GS1" bd);
      (4%nat, mkProw "Short Borrow" (borrow b0) (borrow b1) "GS3M" bs);
      (5%nat, mkProw "Corp Bonds" (corp b0) (corp b1) "GS3M" bk)].

(** [df[df['BU']==bu_choice]] unless the choice is "All"; a boolean mask
    keeps the labels of the rows it keeps. *)
Definition bu_filter (bu_choice : string) (df : pframe) : pframe :=
  if negb (String.eqb bu_choice "All") then
    filter (fun r => String.eqb (BU (snd r)) bu_choice) df
  else df.

Definition isin (types : list string) (df : pframe) : pframe :=
  filter (fun r => existsb (String.eqb (pType (snd r))) types) df.

Definition asset_types : list string := ["Loans"; "Bonds"; "Cash"].
Definition liab_types : list string := ["Deposits"; "Short Borrow"; "Corp Bonds"].

(** A column of a frame as a Series. *)
Definition col (f : prow -> Q) (df : pframe) : series nat :=
  map (fun r => (fst r, Some (f (snd r)))) df.

Definition codes (df : pframe) : list string := map (fun r => pCode (snd r)) df.

(** [r0_map = {c: fy[yield_labels[c]] for c in yield_codes}] *)
Definition rate_map (row_by_label : dict Q) : result (dict Q) :=
  dict_comp (fun c => lbl <- getitem yield_labels c ;; getitem row_by_label lbl)
            yield_codes [].

(** [sum(df['B']*(r1_map[c]-r0_map[c]) for c in df['Code'])]: each term is
    the whole column times one scalar. *)
Definition column_times_rate_changes (b : series nat) (cs : list string)
    (r0_map r1_map : dict Q) : result value :=
  terms <- mapM (fun c =>
                   r1 <- getitem r1_map c ;;
                   r0 <- getitem r0_map c ;;
                   Ok (Ser (scalar_r Qmult b (r1 - r0)))) cs ;;
  Ok (py_sum terms).

(** [sum(df['B']*r_map[c] for c in df['Code'])] *)
Definition column_times_rates (b : series nat) (cs : list string)
    (r_map : dict Q) : result value :=
  terms <- mapM (fun c =>
                   r <- getitem r_map c ;;
                   Ok (Ser (scalar_r Qmult b r))) cs ;;
  Ok (py_sum terms).

(** [zip(x0['B0'], x1['B1'], x0['Code'])]: stops with the shorter frame. *)
Definition zip3 (x0 x1 : pframe) : list (Q * Q * string) :=
  map (fun p => (B0 (snd (fst p)), B1 (snd (snd p)), pCode (snd (fst p))))
      (combine x0 x1).

(** [sum((b1-b0)*r0_map[c] for b0,b1,c in zip(...))] *)
Definition volume_terms (x0 x1 : pframe) (r0_map : dict Q) : result Q :=
  terms <- mapM (fun t => let '(b0, b1, c) := t in
                          r0 <- getitem r0_map c ;;
                          Ok ((b1 - b0) * r0)) (zip3 x0 x1) ;;
  Ok (qsum terms).

(** [sum((b1-b0)*(r1_map[c]-r0_map[c]) for b0,b1,c in zip(...))] *)
Definition mix_terms (x0 x1 : pframe) (r0_map r1_map : dict Q) : result Q :=
  terms <- mapM (fun t => let '(b0, b1, c) := t in
                          r1 <- getitem r1_map c ;;
                          r0 <- getitem r0_map c ;;
                          Ok ((b1 - b0) * (r1 - r0))) (zip3 x0 x1) ;;
  Ok (qsum terms).

Definition rate_var (a0 l0 : pframe) (r0_map r1_map : dict Q) : result value :=
  a <- column_times_rate_changes (col B0 a0) (codes a0) r0_map r1_map ;;
  l <- column_times_rate_changes (col B0 l0) (codes l0) r0_map r1_map ;;
  Ok (vsub a l).

Definition vol_var (a0 a1 l0 l1 : pframe) (r0_map : dict Q) : result Q :=
  a <- volume_terms a0 a1 r0_map ;;
  l <- volume_terms l0 l1 r0_map ;;
  Ok (a - l).

Definition mix_var (a0 a1 l0 l1 : pframe) (r0_map r1_map : dict Q)
    : result Q :=
  a <- mix_terms a0 a1 r0_map r1_map ;;
  l <- mix_terms l0 l1 r0_map r1_map ;;
  Ok (a - l).

Definition nii0 (a0 l0 : pframe) (r0_map : dict Q) : result value :=
  a <- column_times_rates (col B0 a0) (codes a0) r0_map ;;
  l <- column_times_rates (col B0 l0) (codes l0) r0_map ;;
  Ok (vsub a l).

Definition nii1 (a1 l1 : pframe) (r1_map : dict Q) : result value :=
  a <- column_times_rates (col B1 a1) (codes a1) r1_map ;;
  l <- column_times_rates (col B1 l1) (codes l1) r1_map ;;
  Ok (vsub a l).

(** The five entries of the column ΔNII of [wf2], lines 278-284; the
    frame then lays them out as bars. *)
Record explain : Type := mkExplain {
  starting_nii : value;
  rate_variance : value;
  volume_variance : Q;
  mix_variance : Q;
  ending_nii : value
}.

(** Lines 244-276, from the two balance snapshots, the business unit and
    the first and last rows [fy], [ly] of the historical yields. *)
Definition pl_explain (start_bal end_bal : inputs) (bu_choice : string)
    (fy ly : dict Q) : result explain :=
  start_df <- make_sheet start_bal start_bal ;;
  end_df <- make_sheet end_bal end_bal ;;
  let start_df := bu_filter bu_choice start_df in
  let end_df := bu_filter bu_choice end_df in
  r0_map <- rate_map fy ;;
  r1_map <- rate_map ly ;;
  let a0 := isin asset_types start_df in
  let a1 := isin asset_types end_df in
  let l0 := isin liab_types start_df in
  let l1 := isin liab_types end_df in
  rv <- rate_var a0 l0 r0_map r1_map ;;
  vv <- vol_var a0 a1 l0 l1 r0_map ;;
  mv <- mix_var a0 a1 l0 l1 r0_map r1_map ;;
  n0 <- nii0 a0 l0 r0_map ;;
  n1 <- nii1 a1 l1 r1_map ;;
  Ok (mkExplain n0 rv vv mv n1).

(** [starting + rate + volume + mix == ending] on the computed entries. *)
Definition identity_holds (e : explain) : bool :=
  all_equal
    (vadd (vadd (vadd (starting_nii e) (rate_variance e))
                (Num (volume_variance e)))
          (Num (mix_variance e)))
    (ending_nii e).

(** *** Repricing gap and DV01, lines 304-340 *)

Definition tenor_map : dict string :=
  [("Cash", "0-3M"); ("Short Borrow", "0-3M"); ("Deposits", "3-12M");
   ("Loans", "1-5Y"); ("Bonds", "5Y+"); ("Corp Bonds", "5Y+")].

(** Durations in years. *)
Definition dur_map : dict Q :=
  [("0-3M", 1 # 4); ("3-12M", 3 # 4); ("1-5Y", 3); ("5Y+", 15 # 2)].

(** [df['Bucket'] = df['Type'].map(tenor_map)]: a type outside the map
    gets NaN as its bucket. *)
Definition with_bucket (tm : dict string) (df : sheet)
    : list (row * option string) :=
  map (fun r => (r, lookup tm (Type_ r))) df.

Definition in_bucket (k : string) (r : row * option string) : bool :=
  match snd r with
  | Some b => String.eqb b k
  | None => false
  end.

Fixpoint present_buckets (df : list (row * option string)) : list string :=
  match df with
  | [] => []
  | (_, Some b) :: tl => b :: present_buckets tl
  | (_, None) :: tl => present_buckets tl
  end.

(** [df.groupby('Bucket')['Balance'].sum()]: one row per bucket that
    occurs, group keys sorted, rows without a bucket left out. *)
Definition groupby_sum (df : list (row * option string)) : series string :=
  map (fun k => (k, Some (qsum (map (fun r => Balance (fst r))
                                    (filter (in_bucket k) df)))))
      (sort String.leb (unique String.eqb (present_buckets df))).

(** [gap], lines 320-323, for any bucket map and duration map. *)
Definition gap_for (tm : dict string) (dm : dict Q) (assets liabs : sheet)
    : list (string * Q) :=
  fillna 0
    (reindex String.eqb (keys dm)
       (align_op String.eqb String.leb Qminus
          (groupby_sum (with_bucket tm assets))
          (groupby_sum (with_bucket tm liabs)))).

Definition gap (assets liabs : sheet) : list (string * Q) :=
  gap_for tenor_map dur_map assets liabs.

Record dv01_row : Type := mkDv01 {
  Scenario : string;
  Bucket : string;
  DV01 : Q
}.

(** The scenario list of line 328, shifts as decimals. *)
Definition scenarios : list (string * Q) :=
  [("Baseline", 0); ("Adverse", -1 # 100); ("Severely Adverse", -25 # 1000)].

(** The inner loop of lines 329-339 for one scenario [(name, bp)]. *)
Definition dv01_scenario (dm : dict Q) (name : string) (bp : Q)
    (df_gap : list (string * Q)) : result (list dv01_row) :=
  mapM (fun row =>
          let '(bkt, pos) := row in
          D <- getitem dm bkt ;;
          Ok (mkDv01 name bkt (pos * D * (bp * 100)))) df_gap.

(** The nested loop of lines 327-339 over the rows of [df_gap]. *)
Definition dv01_rows_for (dm : dict Q) (scen : list (string * Q))
    (df_gap : list (string * Q)) : result (list dv01_row) :=
  per_scenario <-
    mapM (fun sc => dv01_scenario dm (fst sc) (snd sc) df_gap) scen ;;
  Ok (List.concat per_scenario).

Definition dv01_rows (assets liabs : sheet) : result (list dv01_row) :=
  dv01_rows_for dur_map scenarios (gap assets liabs).


(** *** CCAR / ICAAP projections, lines 405-425 *)

Record proj_row : Type := mkProj {
  Period : string;
  pNII : Q;
  Provisions : Q;
  PreTax : Q;
  CET1 : Q;
  Tier1 : Q;
  LCR : Q;
  NSFR : Q
}.

Definition nii_proj (base_nii gdp_growth unemp_rate : Q) : Q :=
  base_nii * (1 + gdp_growth / 100 - (unemp_rate - 5) / 100 * (1 # 2)).

Definition provisions (base_nii gdp_growth unemp_rate prov_pct : Q) : Q :=
  nii_proj base_nii gdp_growth unemp_rate * prov_pct / 100.

Definition pre_tax_pl (base_nii gdp_growth unemp_rate prov_pct : Q) : Q :=
  nii_proj base_nii gdp_growth unemp_rate
  - provisions base_nii gdp_growth unemp_rate prov_pct.

Definition cet1_ratio (i : nat) : Q :=
  pymax (4 # 100) ((12 # 100) - (5 # 1000) * inject_Z (Z.of_nat i)).
Definition tier1_ratio (i : nat) : Q :=
  pymax (5 # 100) ((13 # 100) - (4 # 1000) * inject_Z (Z.of_nat i)).
Definition lcr (i : nat) : Q := pymax 50 (100 - 2 * inject_Z (Z.of_nat i)).
Definition nsfr (i : nat) : Q := pymax 50 (100 - 1 * inject_Z (Z.of_nat i)).

(** The body of the loop for period number [i]. *)
Definition proj_entry (base_nii gdp_growth unemp_rate prov_pct : Q)
    (i : nat) (label : string) : proj_row :=
  mkProj label
    (round_n 2 (nii_proj base_nii gdp_growth unemp_rate))
    (round_n 2 (provisions base_nii gdp_growth unemp_rate prov_pct))
    (round_n 2 (pre_tax_pl base_nii gdp_growth unemp_rate prov_pct))
    (round_n 4 (cet1_ratio i))
    (round_n 4 (tier1_ratio i))
    (round_n 1 (lcr i))
    (round_n 1 (nsfr i)).

(** [for i, label in enumerate(labels)], counting from [i]. *)
Fixpoint proj_loop (base_nii gdp_growth unemp_rate prov_pct : Q)
    (i : nat) (labels : list string) : list proj_row :=
  match labels with
  | [] => []
  | label :: tl =>
      proj_entry base_nii gdp_growth unemp_rate prov_pct i label
      :: proj_loop base_nii gdp_growth unemp_rate prov_pct (S i) tl
  end.

Definition proj_data (base_nii gdp_growth unemp_rate prov_pct : Q)
    (labels : list string) : list proj_row :=
  proj_loop base_nii gdp_growth unemp_rate prov_pct 0 labels.

End CorpFin.

(* ===================================================================== *)
(** ** Sample inputs: the default values of the sidebar widgets *)
(* ===================================================================== *)

Definition default_inputs : inputs := mkInputs 120 80 40 130 40 20.
Definition default_start : inputs := mkInputs 100 70 30 110 35 15.
Definition default_end : inputs := mkInputs 120 80 40 130 40 20.

(** A sample curve by code, and sample first and last historical rows by
    label. *)
Definition sample_yields : dict Q :=
  [("GS3M", 5 # 100); ("GS1", 3 # 100); ("GS5", 4 # 100); ("GS10", 45 # 1000)].
Definition sample_fy : dict Q :=
  [("3M", 5 # 100); ("1Y", 3 # 100); ("5Y", 4 # 100); ("10Y", 45 # 1000)].
Definition sample_ly : dict Q :=
  [("3M", 4 # 100); ("1Y", 35 # 1000); ("5Y", 42 # 1000); ("10Y", 5 # 100)].

(* ===================================================================== *)
(** ** The quantities as the specification words them *)
(* ===================================================================== *)

(** These definitions follow the wording of the specification, not the
    code; the theorems compare them with what the scripts compute. *)
Module Claimed.

(** A decimal shift in basis points: -0.01 is -100 bp. *)
Definition shift_in_bp (shift : Q) : Q := shift * 10000.

(** DV01 = gap x duration x shift in bp. *)
Definition dv01 (gap duration shift : Q) : Q :=
  gap * duration * shift_in_bp shift.

(** The balances of a sheet assigned to bucket [b]. *)
Definition bucket_balance (tm : dict string) (sh : sheet) (b : string) : Q :=
  qsum (map Balance
          (filter (fun r => match lookup tm (Type_ r) with
                            | Some b' => String.eqb b' b
                            | None => false
                            end) sh)).

(** Gap = asset balances in the bucket minus liability balances in it. *)
Definition gap (tm : dict string) (assets liabs : sheet) (b : string) : Q :=
  bucket_balance tm assets b - bucket_balance tm liabs b.

(** A matched position: start balance, end balance, start and end rate. *)
Record matched : Type := mkMatched {
  balance_start : Q; balance_end : Q; rate_start : Q; rate_end : Q
}.

Definition total (f : matched -> Q) (ps : list matched) : Q := qsum (map f ps).

(** Each term sums assets and liabilities apart and negates the
    liability side. *)
Definition netted (f : matched -> Q) (assets liabs : list matched) : Q :=
  total f assets - total f liabs.

Definition starting_nii := netted (fun p => balance_start p * rate_start p).
Definition rate_variance :=
  netted (fun p => balance_start p * (rate_end p - rate_start p)).
Definition volume_variance :=
  netted (fun p => (balance_end p - balance_start p) * rate_start p).
Definition mix_variance :=
  netted (fun p => (balance_end p - balance_start p) * (rate_end p - rate_start p)).
Definition ending_nii := netted (fun p => balance_end p * rate_end p).

(** Net position at a tenor code: assets minus liabilities priced off it. *)
Definition net_position (assets liabs : sheet) (c : string) : Q :=
  qsum (map Balance (filter (fun r => String.eqb (Code r) c) assets))
  - qsum (map Balance (filter (fun r => String.eqb (Code r) c) liabs)).

End Claimed.

(** The running-sum chain of a waterfall: each bar ends at its start plus
    its ΔNII, and each bar starts where the one before ends. *)
Definition bar_adds_up (s : step) : Prop := End_ s == Start s + dNII s.

Fixpoint chained (l : list step) : Prop :=
  match l with
  | [] => True
  | a :: tl =>
      match tl with
      | [] => True
      | b :: _ => Start b == End_ a /\ chained tl
      end
  end.

Definition running_sum_chain (l : list step) : Prop :=
  Forall bar_adds_up l /\ chained l.

Definition first_is_baseline (l : list step) : Prop :=
  exists s tl, l = s :: tl /\ Maturity s = "Baseline" /\ dNII s == 0.

Definition last_is_total (l : list step) : Prop :=
  exists s hd, l = hd ++ [s] /\ Maturity s = "Total".

(** A curve and the ledger of corp2.py at its default balances. *)
Definition corp2_assets : sheet :=
  [mkRow "Cash" 40 "GS3M"; mkRow "Loans" 120 "GS5"; mkRow "Bonds" 80 "GS10"].
Definition corp2_liabilities : sheet := [mkRow "Deposits" 130 "GS1"].

(** The shift map of macro scenario Adverse: -100 bp on every code. *)
Definition adverse_shifts : dict Q := map (fun c => (c, -1 # 100)) yield_codes.

(** The same ledger with 41.3 of cash, and a custom shift of 25 bp. *)
Definition corp2_assets_odd : sheet :=
  [mkRow "Cash" (413 # 10) "GS3M"; mkRow "Loans" 120 "GS5"; mkRow "Bonds" 80 "GS10"].
Definition custom_25bp : Q := 25 # 10000.
Definition corp2_liabilities_odd : sheet := [mkRow "Deposits" 131 "GS1"].

(** A Series of [n] rows labelled from [from], every cell NaN. *)
Fixpoint all_nan (from n : nat) : Pandas.series nat :=
  match n with
  | O => []
  | S n' => (from, None) :: all_nan (S from) n'
  end.

(** The rows of a cumulative-sum frame written as a running sum from
    [acc]: each bar starts at the sum of the ΔNII before it. *)
Definition bars_from (acc : Q) (rows : list (string * Q)) : list step :=
  map (fun p => mkStep (fst (fst p)) (snd p) (snd p + snd (fst p)) (snd (fst p)))
      (combine rows (acc :: Frame.cumsum_from acc (map snd rows))).

(** The matched positions of the six line items, with the rates read from
    the first and last historical rows. *)
Definition matched_assets (s e : inputs) (fy ly : dict Q) : list Claimed.matched :=
  [Claimed.mkMatched (loans s) (loans e) (get fy "5Y" 0) (get ly "5Y" 0);
   Claimed.mkMatched (bonds s) (bonds e) (get fy "10Y" 0) (get ly "10Y" 0);
   Claimed.mkMatched (cash s) (cash e) (get fy "3M" 0) (get ly "3M" 0)].

Definition matched_liabs (s e : inputs) (fy ly : dict Q) : list Claimed.matched :=
  [Claimed.mkMatched (deposits s) (deposits e) (get fy "1Y" 0) (get ly "1Y" 0);
   Claimed.mkMatched (borrow s) (borrow e) (get fy "3M" 0) (get ly "3M" 0);
   Claimed.mkMatched (corp s) (corp e) (get fy "3M" 0) (get ly "3M" 0)].

(** Whether a sheet has a position assigned to bucket [b]. *)
Definition present (tm : dict string) (sh : sheet) (b : string) : bool :=
  existsb (CorpFin.in_bucket b) (CorpFin.with_bucket tm sh).

(** The balances of a sheet whose code has an entry in the curve. *)
Definition covered_balance (ylds : dict Q) (sh : sheet) : Q :=
  qsum (map Balance
          (filter (fun r => match lookup ylds (Code r) with
                            | Some _ => true
                            | None => false
                            end) sh)).

(** The shock a preset of corp2.py applies at a tenor label: its ['all']
    entry when it has one, else its entry for the label, else 0. *)
Definition shock_at (shock : dict Q) (label : string) : Q :=
  match lookup shock "all" with
  | Some a => a
  | None => get shock label 0
  end.

(** Net balance priced off code [c]: assets minus liabilities. *)
Definition net_at (assets liabilities : sheet) (c : string) : Q :=
  Corp2.balance_at assets c - Corp2.balance_at liabilities c.

(* ===================================================================== *)
(** ** Sums of rationals *)
(* ===================================================================== *)

Lemma fold_left_Qplus_acc (l : list Q) (a : Q) :
  fold_left Qplus l a == a + qsum l.
Proof.
  unfold qsum. revert a.
  induction l as [|x l IH]; intro a; simpl.
  - ring.
  - rewrite (IH (a + x)), (IH (0 + x)). ring.
Qed.

Lemma qsum_nil : qsum [] == 0.
Proof. reflexivity. Qed.

Lemma qsum_cons (x : Q) (l : list Q) : qsum (x :: l) == x + qsum l.
Proof.
  unfold qsum at 1. simpl. rewrite fold_left_Qplus_acc. ring.
Qed.

Lemma qsum_app (l1 l2 : list Q) : qsum (l1 ++ l2) == qsum l1 + qsum l2.
Proof.
  induction l1 as [|x l1 IH]; simpl.
  - rewrite qsum_nil. ring.
  - rewrite !qsum_cons, IH. ring.
Qed.

Lemma column_sum_cons (r : calc_row) (df : list calc_row) :
  column_sum (r :: df) == Amount r + column_sum df.
Proof. unfold column_sum. simpl. apply qsum_cons. Qed.

Lemma balance_sum_cons (r : row) (s : sheet) :
  balance_sum (r :: s) == Balance r + balance_sum s.
Proof. unfold balance_sum. simpl. apply qsum_cons. Qed.

(* ===================================================================== *)
(** ** corp.py: NII is linear in the balances *)
(* ===================================================================== *)

Lemma calculate_scale_sum (k : Q) (sh : sheet) (ylds : dict Q) (field : string) :
  column_sum (Corp.calculate (scale k sh) ylds field)
  == k * column_sum (Corp.calculate sh ylds field).
Proof.
  induction sh as [|r sh IH].
  - unfold column_sum, qsum. simpl. ring.
  - simpl. rewrite !column_sum_cons, IH. simpl. field.
Qed.

(** C7. In corp.py, multiplying every balance of the ledger by [k], with
    the curve unchanged, multiplies the total income, the total expense
    and the net interest income by [k]. *)
Theorem C7_nii_linear_in_balances :
  forall (k : Q) (assets liabilities : sheet) (ylds : dict Q),
    Corp.income (scale k assets) ylds == k * Corp.income assets ylds
    /\ Corp.expense (scale k liabilities) ylds
       == k * Corp.expense liabilities ylds
    /\ Corp.ii (scale k assets) (scale k liabilities) ylds
       == k * Corp.ii assets liabilities ylds.
Proof.
  intros k assets liabilities ylds.
  unfold Corp.ii, Corp.income, Corp.expense.
  rewrite !calculate_scale_sum.
  repeat split; ring.
Qed.

(* ===================================================================== *)
(** ** A tenor code absent from the curve *)
(* ===================================================================== *)

(** The [.get(c, 0)] helpers of corp.py and corp2.py are the same function. *)
Lemma corp2_calculate_is_corp_calculate (df : sheet) (m : dict Q) (f : string) :
  Corp2.calculate df m f = Corp.calculate df m f.
Proof. reflexivity. Qed.

(** A row whose code has no yield gets rate 0 and amount 0. *)
Lemma calculate_absent_code (r : row) (sh : sheet) (ylds : dict Q) (field : string) :
  lookup ylds (Code r) = None ->
  Corp.calculate (r :: sh) ylds field
  = mkCalc r (0 * 100) field (Balance r * (0 * 100) / 100)
    :: Corp.calculate sh ylds field.
Proof.
  intro H. simpl. unfold get. rewrite H. reflexivity.
Qed.

(** The subscripting helper of corp3.py and corp_fin.py raises on the first
    row whose code has no yield, and names that code. *)
Lemma calc_raises_on_absent_code (sh : sheet) (yields_map : dict Q) (fld : string) :
  (exists r, In r sh /\ lookup yields_map (Code r) = None) ->
  exists c, Corp3.calc sh yields_map fld = KeyError c
            /\ lookup yields_map c = None
            /\ exists r, In r sh /\ Code r = c.
Proof.
  induction sh as [|r sh IH]; intros [r0 [Hin Hno]].
  - destruct Hin.
  - unfold Corp3.calc. simpl. unfold getitem at 1.
    destruct (lookup yields_map (Code r)) as [y|] eqn:Hy.
    + simpl.
      assert (Htl : exists r1, In r1 sh /\ lookup yields_map (Code r1) = None).
      { destruct Hin as [->|Hin]; [congruence|]. exists r0. split; assumption. }
      destruct (IH Htl) as [c [Hc [Hl [r1 [Hr1 Hcode]]]]].
      exists c. unfold Corp3.calc in Hc. rewrite Hc. simpl.
      split; [reflexivity|]. split; [assumption|].
      exists r1. split; [right; assumption | assumption].
    + simpl. exists (Code r). split; [reflexivity|]. split; [assumption|].
      exists r. split; [left; reflexivity | reflexivity].
Qed.

Lemma corp_fin_calc_is_corp3_calc (sh : sheet) (m : dict Q) (f : string) :
  CorpFin.calc sh m f = Corp3.calc sh m f.
Proof. reflexivity. Qed.

(** C2. Evaluation at a ledger whose only position, Loans 120 at GS5, has no
    entry in the curve {GS1: 0.03}: [calculate] of corp.py and of corp2.py
    returns a full frame with rate 0 and income 0 and the NII is 0, with no
    failure; the helper [calc] of corp3.py and corp_fin.py raises
    [KeyError] naming GS5. *)
Theorem C2_absent_tenor_reads_as_zero_rate :
  let ledger := [mkRow "Loans" 120 "GS5"] in
  let curve := [("GS1", 3 # 100)] in
  Corp.calculate ledger curve "Income"
  = [mkCalc (mkRow "Loans" 120 "GS5") (0 * 100) "Income" (120 * (0 * 100) / 100)]
  /\ Corp2.calculate ledger curve "Income" = Corp.calculate ledger curve "Income"
  /\ Corp.ii ledger [] curve == 0
  /\ Corp2.nii ledger [] curve == 0
  /\ Corp3.nii ledger [] curve = KeyError "GS5"
  /\ CorpFin.stressed_nii ledger [] curve = KeyError "GS5".
Proof.
  cbv zeta. repeat split; reflexivity.
Qed.

(* ===================================================================== *)
(** ** corp3.py: a uniform shift *)
(* ===================================================================== *)

Section UniformShift.

Variables (y3m y1 y5 y10 s : Q).

Let current : dict Q -> Prop := fun yc =>
  lookup yc "GS3M" = Some y3m /\ lookup yc "GS1" = Some y1
  /\ lookup yc "GS5" = Some y5 /\ lookup yc "GS10" = Some y10.

Let shocked : dict Q :=
  [("GS3M", y3m + s); ("GS1", y1 + s); ("GS5", y5 + s); ("GS10", y10 + s)].

Lemma shifted_uniform (yc sm : dict Q) :
  current yc ->
  (forall c, In c yield_codes -> lookup sm c = Some s) ->
  Corp3.shifted yc sm = Ok shocked.
Proof.
  intros (H1 & H2 & H3 & H4) Hs.
  unfold Corp3.shifted, yield_codes, getitem. simpl.
  rewrite H1, H2, H3, H4.
  rewrite !Hs by (simpl; auto).
  reflexivity.
Qed.

Lemma calc_uniform (yc : dict Q) (sh : sheet) (fld : string) :
  current yc ->
  (forall r, In r sh -> In (Code r) yield_codes) ->
  exists rows0 rows1,
    Corp3.calc sh yc fld = Ok rows0
    /\ Corp3.calc sh shocked fld = Ok rows1
    /\ column_sum rows1 == column_sum rows0 + s * balance_sum sh.
Proof.
  intros (H1 & H2 & H3 & H4) Hcodes.
  induction sh as [|r sh IH].
  - exists [], []. repeat split. unfold column_sum, balance_sum, qsum. simpl. ring.
  - destruct IH as (rows0 & rows1 & E0 & E1 & Hsum).
    { intros r0 Hr0. apply Hcodes. right. assumption. }
    unfold Corp3.calc in *. simpl mapM. rewrite E0, E1.
    assert (Hc : In (Code r) yield_codes) by (apply Hcodes; left; reflexivity).
    unfold yield_codes in Hc. simpl in Hc.
    destruct Hc as [Hc|[Hc|[Hc|[Hc|[]]]]]; rewrite <- Hc; unfold getitem;
      rewrite ?H1, ?H2, ?H3, ?H4; simpl;
      eexists; eexists; (split; [reflexivity|]); (split; [reflexivity|]);
      rewrite !column_sum_cons, balance_sum_cons, Hsum; simpl; field.
Qed.

End UniformShift.

(** C8. In corp3.py, when the curve has a yield for each of the four codes,
    the shift map gives the same shift [s] to each of them and every
    position is priced off one of the four codes, the shifted curve and
    both NII values are computed, and the stressed NII is the baseline NII
    plus [s] times (total asset balance minus total liability balance). *)
Theorem C8_uniform_shift_moves_nii_by_net_balance :
  forall (assets liabs : sheet) (yields_current shifts_map : dict Q) (s : Q),
    (forall c, In c yield_codes -> exists y, lookup yields_current c = Some y) ->
    (forall c, In c yield_codes -> lookup shifts_map c = Some s) ->
    (forall r, In r (assets ++ liabs) -> In (Code r) yield_codes) ->
    exists shifted n0 n1,
      Corp3.shifted yields_current shifts_map = Ok shifted
      /\ Corp3.nii assets liabs yields_current = Ok n0
      /\ Corp3.nii assets liabs shifted = Ok n1
      /\ n1 == n0 + s * (balance_sum assets - balance_sum liabs).
Proof.
  intros assets liabs yc sm s Hyc Hsm Hcodes.
  destruct (Hyc "GS3M") as [y3m H1]; [simpl; auto|].
  destruct (Hyc "GS1") as [y1 H2]; [simpl; auto|].
  destruct (Hyc "GS5") as [y5 H3]; [simpl; auto|].
  destruct (Hyc "GS10") as [y10 H4]; [simpl; auto 6|].
  assert (Hcur : lookup yc "GS3M" = Some y3m /\ lookup yc "GS1" = Some y1
                 /\ lookup yc "GS5" = Some y5 /\ lookup yc "GS10" = Some y10)
    by (repeat split; assumption).
  destruct (calc_uniform y3m y1 y5 y10 s yc assets "Income" Hcur)
    as (a0 & a1 & Ea0 & Ea1 & Ha).
  { intros r Hr. apply Hcodes, in_or_app. left. assumption. }
  destruct (calc_uniform y3m y1 y5 y10 s yc liabs "Expense" Hcur)
    as (l0 & l1 & El0 & El1 & Hl).
  { intros r Hr. apply Hcodes, in_or_app. right. assumption. }
  eexists. exists (column_sum a0 - column_sum l0), (column_sum a1 - column_sum l1).
  split; [apply (shifted_uniform y3m y1 y5 y10 s); assumption|].
  unfold Corp3.nii. rewrite Ea0, El0, Ea1, El1. simpl.
  repeat split. rewrite Ha, Hl. ring.
Qed.

(** C8 at the default balances, the sample curve and the shift -100 bp. *)
Lemma C8_uniform_shift_witness :
  exists shifted n0 n1,
    Corp3.shifted sample_yields (map (fun c => (c, -1 # 100)) yield_codes)
    = Ok shifted
    /\ Corp3.nii (assets_of default_inputs) (liabs_of default_inputs) sample_yields
       = Ok n0
    /\ Corp3.nii (assets_of default_inputs) (liabs_of default_inputs) shifted
       = Ok n1
    /\ n1 == n0 + (-1 # 100) * (balance_sum (assets_of default_inputs)
                                - balance_sum (liabs_of default_inputs)).
Proof.
  apply (C8_uniform_shift_moves_nii_by_net_balance
           (assets_of default_inputs) (liabs_of default_inputs) sample_yields
           (map (fun c => (c, -1 # 100)) yield_codes) (-1 # 100)).
  - intros c Hc. simpl in Hc.
    destruct Hc as [<-|[<-|[<-|[<-|[]]]]]; eexists; reflexivity.
  - intros c Hc. simpl in Hc.
    destruct Hc as [<-|[<-|[<-|[<-|[]]]]]; reflexivity.
  - intros r Hr. simpl in Hr.
    destruct Hr as [<-|[<-|[<-|[<-|[<-|[<-|[]]]]]]]; simpl; auto 6.
Defined.

(* ===================================================================== *)
(** ** corp_fin.py: repricing gap and DV01 *)
(* ===================================================================== *)

Lemma gap_for_buckets (tm : dict string) (dm : dict Q) (assets liabs : sheet) :
  map fst (CorpFin.gap_for tm dm assets liabs) = keys dm.
Proof.
  unfold CorpFin.gap_for, Pandas.fillna, Pandas.reindex.
  rewrite !map_map. simpl. apply map_id.
Qed.

(** C9. Whatever the ledger, the gap result has exactly the four buckets
    0-3M, 3-12M, 1-5Y, 5Y+, in this order. *)
Theorem C9_gap_has_the_four_buckets_in_order :
  forall assets liabs : sheet,
    map fst (CorpFin.gap assets liabs) = ["0-3M"; "3-12M"; "1-5Y"; "5Y+"].
Proof.
  intros assets liabs. unfold CorpFin.gap. rewrite gap_for_buckets. reflexivity.
Qed.

Lemma lookup_of_key {V : Type} (d : dict V) (k : string) :
  In k (keys d) -> exists v, lookup d k = Some v.
Proof.
  induction d as [|[k' v'] d IH]; simpl; intro H.
  - destruct H.
  - destruct (String.eqb_spec k k') as [->|Hne].
    + exists v'. reflexivity.
    + destruct H as [H|H]; [congruence | apply IH; assumption].
Qed.

(** Each row of one scenario: its bucket row of the gap frame, the duration
    of that bucket, and the shift times 100. *)
Lemma dv01_scenario_rows (dm : dict Q) (name : string) (bp : Q)
    (df_gap : list (string * Q)) :
  (forall p, In p df_gap -> In (fst p) (keys dm)) ->
  exists rows,
    CorpFin.dv01_scenario dm name bp df_gap = Ok rows
    /\ Forall2 (fun p r =>
                  CorpFin.Scenario r = name /\ CorpFin.Bucket r = fst p
                  /\ exists D, lookup dm (fst p) = Some D
                               /\ CorpFin.DV01 r = snd p * D * (bp * 100))
               df_gap rows.
Proof.
  induction df_gap as [|[bkt pos] df IH]; intro Hk.
  - exists []. split; [reflexivity | constructor].
  - destruct IH as (rows & E & HF).
    { intros p Hp. apply Hk. right. assumption. }
    destruct (lookup_of_key dm bkt) as [D HD].
    { apply (Hk (bkt, pos)). left. reflexivity. }
    unfold CorpFin.dv01_scenario in *. simpl mapM. unfold getitem at 1.
    rewrite HD, E. simpl.
    eexists. split; [reflexivity|].
    constructor; [|assumption].
    simpl. repeat split. exists D. split; [assumption | reflexivity].
Qed.

Lemma gap_for_keys (tm : dict string) (dm : dict Q) (assets liabs : sheet) :
  forall p, In p (CorpFin.gap_for tm dm assets liabs) -> In (fst p) (keys dm).
Proof.
  intros p Hp. rewrite <- (gap_for_buckets tm dm assets liabs).
  apply in_map. assumption.
Qed.

Lemma Forall2_in_r {A B : Type} (P : A -> B -> Prop) (l : list A) (l' : list B) :
  Forall2 P l l' -> forall b, In b l' -> exists a, In a l /\ P a b.
Proof.
  induction 1 as [|a b l l' Hab _ IH]; intros b0 Hb.
  - destruct Hb.
  - destruct Hb as [<-|Hb].
    + exists a. split; [left; reflexivity | assumption].
    + destruct (IH b0 Hb) as [a0 [Ha0 HP]]. exists a0. split; [right|]; assumption.
Qed.

(** Every row of the DV01 table comes from one scenario and one gap row. *)
Lemma dv01_rows_for_rows (dm : dict Q) (scen : list (string * Q))
    (df_gap : list (string * Q)) :
  (forall p, In p df_gap -> In (fst p) (keys dm)) ->
  exists rows,
    CorpFin.dv01_rows_for dm scen df_gap = Ok rows
    /\ forall r, In r rows ->
         exists bp g D,
           In (CorpFin.Scenario r, bp) scen
           /\ In (CorpFin.Bucket r, g) df_gap
           /\ lookup dm (CorpFin.Bucket r) = Some D
           /\ CorpFin.DV01 r = g * D * (bp * 100).
Proof.
  intro Hk. unfold CorpFin.dv01_rows_for.
  induction scen as [|[name bp] scen IH].
  - exists []. split; [reflexivity|]. intros r [].
  - destruct IH as (rows & E & Hrows).
    destruct (dv01_scenario_rows dm name bp df_gap Hk) as (rs & Ers & HF).
    simpl mapM. simpl fst. simpl snd. rewrite Ers. simpl.
    destruct (mapM (fun sc => CorpFin.dv01_scenario dm (fst sc) (snd sc) df_gap) scen)
      as [per|k] eqn:Eper; [|discriminate].
    simpl in E. injection E as <-. simpl.
    eexists. split; [reflexivity|].
    intros r Hr. apply in_app_or in Hr. destruct Hr as [Hr|Hr].
    + destruct (Forall2_in_r _ _ _ HF r Hr) as ([b g] & Hin & Hs & Hb & D & HD & Hv).
      simpl in *. subst. exists bp, g, D.
      repeat split; auto.
    + destruct (Hrows r Hr) as (bp' & g & D & H1 & H2 & H3 & H4).
      exists bp', g, D. repeat split; auto.
Qed.

(** The DV01 the code reports is a hundredth of gap x duration x shift in
    basis points: the shift is multiplied by 100, not by 10000. *)
Lemma dv01_rows_are_a_hundredth (dm : dict Q) (scen : list (string * Q))
    (tm : dict string) (assets liabs : sheet) :
  exists rows,
    CorpFin.dv01_rows_for dm scen (CorpFin.gap_for tm dm assets liabs) = Ok rows
    /\ forall r, In r rows ->
         exists bp g D,
           In (CorpFin.Scenario r, bp) scen
           /\ In (CorpFin.Bucket r, g) (CorpFin.gap_for tm dm assets liabs)
           /\ lookup dm (CorpFin.Bucket r) = Some D
           /\ CorpFin.DV01 r * 100 == Claimed.dv01 g D bp.
Proof.
  destruct (dv01_rows_for_rows dm scen (CorpFin.gap_for tm dm assets liabs)
              (gap_for_keys tm dm assets liabs)) as (rows & E & Hrows).
  exists rows. split; [assumption|].
  intros r Hr. destruct (Hrows r Hr) as (bp & g & D & H1 & H2 & H3 & H4).
  exists bp, g, D. repeat split; auto.
  rewrite H4. unfold Claimed.dv01, Claimed.shift_in_bp. ring.
Qed.

(** C4. Evaluation at the default balances: the gap of bucket 5Y+ is 60 and
    its duration 7.5; for scenario Adverse, shift -0.01 (-100 bp), the code
    reports DV01 = 60 x 7.5 x (-0.01 x 100) = -450, whereas gap x duration
    x shift in bp is 60 x 7.5 x (-100) = -45000. *)
Theorem C4_dv01_scales_shift_by_100_not_10000 :
  exists rows r g,
    CorpFin.dv01_rows (assets_of default_inputs) (liabs_of default_inputs)
    = Ok rows
    /\ nth_error rows 7 = Some r
    /\ CorpFin.Scenario r = "Adverse" /\ CorpFin.Bucket r = "5Y+"
    /\ lookup (CorpFin.gap (assets_of default_inputs) (liabs_of default_inputs)) "5Y+"
       = Some g
    /\ g == 60
    /\ lookup CorpFin.dur_map "5Y+" = Some (15 # 2)
    /\ lookup CorpFin.scenarios "Adverse" = Some (-1 # 100)
    /\ Claimed.shift_in_bp (-1 # 100) == -100
    /\ CorpFin.DV01 r == -450
    /\ Claimed.dv01 g (15 # 2) (-1 # 100) == -45000
    /\ ~ CorpFin.DV01 r == Claimed.dv01 g (15 # 2) (-1 # 100).
Proof.
  eexists. eexists. eexists.
  split; [vm_compute; reflexivity|].
  split; [vm_compute; reflexivity|].
  split; [reflexivity|]. split; [reflexivity|].
  split; [vm_compute; reflexivity|].
  repeat split; try (vm_compute; reflexivity).
  intro H. vm_compute in H. discriminate H.
Qed.

(** C5. Evaluation at the default balances.  Bucket 3-12M holds only the
    liability Deposits 130 and bucket 1-5Y only the asset Loans 120: the
    code reports gap 0 for both, whereas assets minus liabilities is -130
    and 120.  Buckets 0-3M (Cash 40, Short Borrow 40) and 5Y+ (Bonds 80,
    Corp Bonds 20), which hold both sides, report 0 and 60. *)
Theorem C5_one_sided_bucket_reports_zero :
  exists g1 g2 g3 g4,
    CorpFin.gap (assets_of default_inputs) (liabs_of default_inputs)
    = [("0-3M", g1); ("3-12M", g2); ("1-5Y", g3); ("5Y+", g4)]
    /\ g2 == 0
    /\ Claimed.gap CorpFin.tenor_map (assets_of default_inputs)
         (liabs_of default_inputs) "3-12M" == -130
    /\ g3 == 0
    /\ Claimed.gap CorpFin.tenor_map (assets_of default_inputs)
         (liabs_of default_inputs) "1-5Y" == 120
    /\ g1 == Claimed.gap CorpFin.tenor_map (assets_of default_inputs)
         (liabs_of default_inputs) "0-3M"
    /\ g4 == Claimed.gap CorpFin.tenor_map (assets_of default_inputs)
         (liabs_of default_inputs) "5Y+"
    /\ g4 == 60.
Proof.
  do 4 eexists.
  split; [vm_compute; reflexivity|].
  repeat split; vm_compute; reflexivity.
Qed.

(* ===================================================================== *)
(** ** The waterfall total and the change in NII *)
(* ===================================================================== *)

(** C3. Evaluation of corp_fin.py at the default balances, the sample curve
    and the shift -100 bp on every code.  NII goes from 3.5 to 3.0, a change
    of -0.5.  The waterfall sums balance x rate change over Cash, Deposits,
    Loans and Bonds, all with a plus sign, and leaves out Short Borrow and
    Corp Bonds: its Total row has ΔNII -3.7.  Its 1Y row is -1.3, whereas
    the net position at GS1 is -130 and net position x rate change is 1.3. *)
Theorem C3_waterfall_total_is_not_the_nii_change :
  exists shifted rows hd t r1y n0 n1,
    CorpFin.shifted sample_yields adverse_shifts = Ok shifted
    /\ CorpFin.wf1 default_inputs sample_yields shifted = Ok rows
    /\ rows = hd ++ [t] /\ Maturity t = "Total"
    /\ CorpFin.stressed_nii (assets_of default_inputs) (liabs_of default_inputs)
         sample_yields = Ok n0
    /\ CorpFin.stressed_nii (assets_of default_inputs) (liabs_of default_inputs)
         shifted = Ok n1
    /\ n0 == 35 # 10 /\ n1 == 3
    /\ dNII t == -37 # 10
    /\ ~ dNII t == n1 - n0
    /\ nth_error rows 2 = Some r1y /\ Maturity r1y = "1Y"
    /\ dNII r1y == -13 # 10
    /\ Claimed.net_position (assets_of default_inputs) (liabs_of default_inputs) "GS1"
       * ((-1 # 100)) == 13 # 10.
Proof.
  eexists. eexists.
  exists [mkStep "Baseline" 0 0 0;
          mkStep "3M" 0 (-0.40) (-0.40);
          mkStep "1Y" (-0.40) (-1.7000) (-1.30);
          mkStep "5Y" (-1.7000) (-2.900000) (-1.20);
          mkStep "10Y" (-2.900000) (-3.70000000) (-0.80)].
  do 4 eexists.
  split; [vm_compute; reflexivity|].
  split; [vm_compute; reflexivity|].
  split; [reflexivity|]. split; [reflexivity|].
  split; [vm_compute; reflexivity|].
  split; [vm_compute; reflexivity|].
  split; [vm_compute; reflexivity|].
  split; [vm_compute; reflexivity|].
  split; [vm_compute; reflexivity|].
  split; [intro H; vm_compute in H; discriminate H|].
  split; [reflexivity|].
  repeat split; vm_compute; reflexivity.
Qed.

(** *** corp2.py nets the balances per code, and its total reconciles *)

Section Corp2Waterfall.

Variables (y3m y1 y5 y10 s3m s1 s5 s10 : Q).
Variables (yields_current shifts : dict Q).

Hypothesis Hy : lookup yields_current "GS3M" = Some y3m
                /\ lookup yields_current "GS1" = Some y1
                /\ lookup yields_current "GS5" = Some y5
                /\ lookup yields_current "GS10" = Some y10.
Hypothesis Hs : lookup shifts "GS3M" = Some s3m /\ lookup shifts "GS1" = Some s1
                /\ lookup shifts "GS5" = Some s5 /\ lookup shifts "GS10" = Some s10.

(** The income (or expense) of a sheet, grouped by code. *)
Lemma calculate_by_code (sh : sheet) (m : dict Q) (fld : string) :
  (forall r, In r sh -> In (Code r) yield_codes) ->
  column_sum (Corp2.calculate sh m fld)
  == Corp2.balance_at sh "GS3M" * get m "GS3M" 0
     + Corp2.balance_at sh "GS1" * get m "GS1" 0
     + Corp2.balance_at sh "GS5" * get m "GS5" 0
     + Corp2.balance_at sh "GS10" * get m "GS10" 0.
Proof.
  unfold Corp2.balance_at.
  induction sh as [|r sh IH]; intro Hc.
  - unfold column_sum, qsum. simpl. ring.
  - simpl Corp2.calculate. rewrite column_sum_cons, IH
      by (intros r0 Hr0; apply Hc; right; assumption).
    assert (H : In (Code r) yield_codes) by (apply Hc; left; reflexivity).
    simpl in H.
    destruct H as [H|[H|[H|[H|[]]]]]; simpl filter; rewrite <- H; simpl;
      rewrite !qsum_cons; field.
Qed.

(** The rows of the waterfall, written out. *)
Lemma corp2_wf_rows (assets liabilities : sheet) :
  let n := Claimed.net_position assets liabilities in
  let c1 := 0 + n "GS3M" * (s3m - y3m) in
  let c2 := c1 + n "GS1" * (s1 - y1) in
  let c3 := c2 + n "GS5" * (s5 - y5) in
  let c4 := c3 + n "GS10" * (s10 - y10) in
  Corp2.wf assets liabilities shifts yields_current
  = Ok [mkStep "Baseline" 0 0 0;
        mkStep "3M" 0 c1 (round2 (n "GS3M" * (s3m - y3m)));
        mkStep "1Y" c1 c2 (round2 (n "GS1" * (s1 - y1)));
        mkStep "5Y" c2 c3 (round2 (n "GS5" * (s5 - y5)));
        mkStep "10Y" c3 c4 (round2 (n "GS10" * (s10 - y10)));
        mkStep "Total" 0 c4 (round2 c4)].
Proof.
  destruct Hy as (Y1 & Y2 & Y3 & Y4). destruct Hs as (S1 & S2 & S3 & S4).
  unfold Corp2.wf, Corp2.net_bal, yield_codes. simpl dict_comp.
  cbv beta iota delta [bind]. simpl Corp2.wf_loop.
  unfold getitem. simpl lookup at 1.
  rewrite Y1, Y2, Y3, Y4, S1, S2, S3, S4. simpl.
  reflexivity.
Qed.

(** The End of the Total row is the NII on the scenario curve minus the NII
    on the base curve. *)
Lemma corp2_total_reconciles (assets liabilities : sheet) :
  (forall r, In r (assets ++ liabilities) -> In (Code r) yield_codes) ->
  exists hd t,
    Corp2.wf assets liabilities shifts yields_current = Ok (hd ++ [t])
    /\ Maturity t = "Total"
    /\ End_ t == Corp2.nii assets liabilities shifts
                 - Corp2.nii assets liabilities yields_current
    /\ dNII t = round2 (End_ t).
Proof.
  intro Hc.
  pose proof (corp2_wf_rows assets liabilities) as E. cbv zeta in E.
  eexists [_; _; _; _; _]. eexists.
  split; [exact E|]. split; [reflexivity|]. split; [|reflexivity].
  simpl End_. unfold Corp2.nii.
  rewrite !calculate_by_code
    by (intros r Hr; apply Hc, in_or_app; auto).
  destruct Hy as (Y1 & Y2 & Y3 & Y4). destruct Hs as (S1 & S2 & S3 & S4).
  unfold get. rewrite Y1, Y2, Y3, Y4, S1, S2, S3, S4.
  unfold Claimed.net_position, Corp2.balance_at. ring.
Qed.

End Corp2Waterfall.

(* ===================================================================== *)
(** ** The running-sum chain of the waterfall *)
(* ===================================================================== *)

Lemma cumsum_from_length (l : list Q) (a : Q) :
  List.length (Frame.cumsum_from a l) = List.length l.
Proof.
  revert a. induction l as [|x l IH]; intro a; simpl; [|rewrite IH]; reflexivity.
Qed.

Lemma combine_removelast {A B : Type} (l : list A) (cs : list B) (a : B) :
  List.length cs = List.length l ->
  combine l (a :: removelast cs) = combine l (a :: cs).
Proof.
  revert cs a. induction l as [|x l IH]; intros cs a Hlen.
  - reflexivity.
  - destruct cs as [|c cs]; [discriminate|].
    simpl in Hlen. injection Hlen as Hlen.
    simpl combine. f_equal.
    destruct cs as [|c' cs].
    + destruct l; [reflexivity | discriminate].
    + change (removelast (c :: c' :: cs)) with (c :: removelast (c' :: cs)).
      apply IH. assumption.
Qed.

Lemma bars_from_cons (acc : Q) (r : string * Q) (tl : list (string * Q)) :
  bars_from acc (r :: tl)
  = mkStep (fst r) acc (acc + snd r) (snd r) :: bars_from (acc + snd r) tl.
Proof. reflexivity. Qed.

Lemma bars_from_chain (rows : list (string * Q)) :
  forall acc, Forall bar_adds_up (bars_from acc rows)
              /\ chained (bars_from acc rows)
              /\ (forall s tl, bars_from acc rows = s :: tl -> Start s = acc).
Proof.
  induction rows as [|r rows IH]; intro acc.
  - repeat split; [constructor | discriminate].
  - rewrite bars_from_cons.
    destruct (IH (acc + snd r)) as (Hadd & Hch & Hst).
    split; [constructor; [unfold bar_adds_up; simpl; reflexivity | assumption]|].
    split.
    + simpl. destruct (bars_from (acc + snd r) rows) as [|b tl] eqn:E.
      * exact I.
      * split; [|assumption]. rewrite (Hst b tl eq_refl). simpl. reflexivity.
    + intros s tl H. injection H as <- _. reflexivity.
Qed.

Lemma bars_from_last (rows : list (string * Q)) (x : string * Q) :
  forall acc, exists st,
    bars_from acc (rows ++ [x])
    = bars_from acc rows ++ [mkStep (fst x) st (st + snd x) (snd x)].
Proof.
  induction rows as [|r rows IH]; intro acc.
  - exists acc. reflexivity.
  - destruct (IH (acc + snd r)) as [st E]. exists st.
    simpl app. rewrite !bars_from_cons, E. reflexivity.
Qed.

Lemma waterfall_frame_bars (deltas : list (string * Q)) (total : Q) :
  Frame.waterfall_frame deltas total
  = mkStep "Baseline" 0 (0 + 0) 0 :: bars_from 0 (deltas ++ [("Total", total)]).
Proof.
  unfold Frame.waterfall_frame, bars_from. cbv zeta.
  simpl app. simpl map at 2. unfold Frame.cumsum, Frame.shift.
  rewrite combine_removelast
    by (simpl; rewrite cumsum_from_length, length_map; reflexivity).
  reflexivity.
Qed.

(** The frame built with [cumsum] and [shift] is a strict running-sum
    chain from the Baseline row to the Total row, whatever the deltas. *)
Lemma waterfall_frame_chain (deltas : list (string * Q)) (total : Q) :
  first_is_baseline (Frame.waterfall_frame deltas total)
  /\ last_is_total (Frame.waterfall_frame deltas total)
  /\ running_sum_chain (Frame.waterfall_frame deltas total).
Proof.
  rewrite waterfall_frame_bars.
  destruct (bars_from_chain (deltas ++ [("Total", total)]) 0) as (Hadd & Hch & Hst).
  split; [|split].
  - eexists. eexists. split; [reflexivity|]. split; reflexivity.
  - destruct (bars_from_last deltas ("Total", total) 0) as [st E].
    rewrite E. eexists. exists (mkStep "Baseline" 0 (0 + 0) 0 :: bars_from 0 deltas).
    split; [reflexivity | reflexivity].
  - split.
    + constructor; [unfold bar_adds_up; simpl; reflexivity | assumption].
    + simpl. destruct (bars_from 0 (deltas ++ [("Total", total)])) as [|b tl] eqn:E.
      * exact I.
      * split; [|assumption]. rewrite (Hst b tl eq_refl). simpl. ring.
Qed.

(** With a yield for each code on both curves the loop of corp3.py and
    corp_fin.py runs to its end. *)
Lemma frame_waterfall_runs (cash deposits loans bonds : Q)
    (yields_current shifted : dict Q) :
  (forall c, In c yield_codes ->
     (exists y, lookup yields_current c = Some y)
     /\ (exists y, lookup shifted c = Some y)) ->
  exists deltas total,
    Frame.waterfall cash deposits loans bonds yields_current shifted
    = Ok (Frame.waterfall_frame deltas total).
Proof.
  intro H.
  destruct (H "GS3M") as [[a1 A1] [b1 B1]]; [simpl; auto|].
  destruct (H "GS1") as [[a2 A2] [b2 B2]]; [simpl; auto|].
  destruct (H "GS5") as [[a3 A3] [b3 B3]]; [simpl; auto|].
  destruct (H "GS10") as [[a4 A4] [b4 B4]]; [simpl; auto 6|].
  unfold Frame.waterfall, Frame.balances, items, yield_labels.
  simpl Frame.delta_loop. unfold getitem. simpl lookup at 1.
  rewrite A1, A2, A3, A4, B1, B2, B3, B4. simpl.
  eexists. eexists. reflexivity.
Qed.

(** For every input, the Total row of the waterfall of corp3.py and
    corp_fin.py is the rounding of cash, deposits, loans and bonds each
    times the rate change at its label, all four with a plus sign. *)
Lemma frame_waterfall_total (cash deposits loans bonds : Q)
    (yields_current shifted : dict Q) (y3m y1 y5 y10 s3m s1 s5 s10 : Q) :
  lookup yields_current "GS3M" = Some y3m -> lookup yields_current "GS1" = Some y1 ->
  lookup yields_current "GS5" = Some y5 -> lookup yields_current "GS10" = Some y10 ->
  lookup shifted "GS3M" = Some s3m -> lookup shifted "GS1" = Some s1 ->
  lookup shifted "GS5" = Some s5 -> lookup shifted "GS10" = Some s10 ->
  exists deltas change,
    Frame.waterfall cash deposits loans bonds yields_current shifted
    = Ok (Frame.waterfall_frame deltas (round2 change))
    /\ change == cash * (s3m - y3m) + deposits * (s1 - y1)
                 + loans * (s5 - y5) + bonds * (s10 - y10).
Proof.
  intros A1 A2 A3 A4 B1 B2 B3 B4.
  unfold Frame.waterfall, Frame.balances, items, yield_labels.
  simpl Frame.delta_loop. unfold getitem. simpl lookup at 1.
  rewrite A1, A2, A3, A4, B1, B2, B3, B4. simpl.
  eexists. eexists. split; [reflexivity | ring].
Qed.

(** The waterfalls of corp3.py and corp_fin.py, for two curves with the
    four codes: Baseline first, Total last, and a strict running-sum chain
    over all rows. *)
Lemma cumsum_waterfalls_keep_the_chain (i : inputs)
    (yields_current shifted : dict Q) :
  (forall c, In c yield_codes ->
     (exists y, lookup yields_current c = Some y)
     /\ (exists y, lookup shifted c = Some y)) ->
  exists rows,
    Corp3.wf i yields_current shifted = Ok rows
    /\ CorpFin.wf1 i yields_current shifted = Ok rows
    /\ first_is_baseline rows /\ last_is_total rows
    /\ running_sum_chain rows.
Proof.
  intro H.
  destruct (frame_waterfall_runs (cash i) (deposits i) (loans i) (bonds i)
              yields_current shifted H) as (deltas & total & E).
  exists (Frame.waterfall_frame deltas total).
  split; [exact E|]. split; [exact E|]. apply waterfall_frame_chain.
Qed.

(** C6. Evaluation of corp2.py at cash 41.3, loans 120, bonds 80, deposits
    131, the sample curve and a custom shift of 25 bp.  The sequence starts
    with Baseline and ends with Total, but it is not a running-sum chain:
    the 3M bar runs from 0 to 0.10325 while its ΔNII is 0.10, and the Total
    bar starts at 0 while the 10Y bar before it ends at 0.27575. *)
Theorem C6_corp2_waterfall_breaks_the_chain :
  exists shifts rows b3m b10y t,
    Corp2.shifts "Custom" sample_yields custom_25bp = Ok shifts
    /\ Corp2.wf corp2_assets_odd corp2_liabilities_odd shifts sample_yields = Ok rows
    /\ first_is_baseline rows /\ last_is_total rows
    /\ nth_error rows 1 = Some b3m /\ Maturity b3m = "3M"
    /\ Start b3m == 0 /\ End_ b3m == 10325 # 100000 /\ dNII b3m == 1 # 10
    /\ nth_error rows 4 = Some b10y /\ Maturity b10y = "10Y"
    /\ End_ b10y == 27575 # 100000
    /\ nth_error rows 5 = Some t /\ Maturity t = "Total"
    /\ Start t == 0 /\ End_ t == 27575 # 100000
    /\ ~ Forall bar_adds_up rows
    /\ ~ chained rows
    /\ ~ running_sum_chain rows.
Proof.
  do 5 eexists.
  split; [vm_compute; reflexivity|].
  split; [vm_compute; reflexivity|].
  split; [eexists; eexists; split; [reflexivity | split; reflexivity]|].
  split; [eexists; eexists [_; _; _; _; _]; split; reflexivity|].
  split; [reflexivity|]. split; [reflexivity|].
  split; [reflexivity|]. split; [reflexivity|]. split; [reflexivity|].
  split; [reflexivity|]. split; [reflexivity|]. split; [reflexivity|].
  split; [reflexivity|]. split; [reflexivity|].
  split; [reflexivity|]. split; [reflexivity|].
  split; [|split].
  - intro H. apply Forall_inv_tail, Forall_inv in H.
    vm_compute in H. discriminate H.
  - intro H. cbn [chained] in H.
    destruct H as (_ & _ & _ & _ & H & _). vm_compute in H. discriminate H.
  - intros [H _]. apply Forall_inv_tail, Forall_inv in H.
    vm_compute in H. discriminate H.
Qed.

(* ===================================================================== *)
(** ** corp_fin.py: the rate / volume / mix attribution *)
(* ===================================================================== *)

(** The five terms as the specification defines them add up. *)
Lemma claimed_terms_add_up (ps : list Claimed.matched) :
  Claimed.total (fun p => Claimed.balance_start p * Claimed.rate_start p) ps
  + Claimed.total (fun p => Claimed.balance_start p
                            * (Claimed.rate_end p - Claimed.rate_start p)) ps
  + Claimed.total (fun p => (Claimed.balance_end p - Claimed.balance_start p)
                            * Claimed.rate_start p) ps
  + Claimed.total (fun p => (Claimed.balance_end p - Claimed.balance_start p)
                            * (Claimed.rate_end p - Claimed.rate_start p)) ps
  == Claimed.total (fun p => Claimed.balance_end p * Claimed.rate_end p) ps.
Proof.
  unfold Claimed.total.
  induction ps as [|p ps IH]; simpl.
  - unfold qsum. simpl. ring.
  - rewrite !qsum_cons, <- IH. ring.
Qed.

Lemma claimed_identity (assets liabs : list Claimed.matched) :
  Claimed.starting_nii assets liabs + Claimed.rate_variance assets liabs
  + Claimed.volume_variance assets liabs + Claimed.mix_variance assets liabs
  == Claimed.ending_nii assets liabs.
Proof.
  unfold Claimed.starting_nii, Claimed.rate_variance, Claimed.volume_variance,
    Claimed.mix_variance, Claimed.ending_nii, Claimed.netted.
  rewrite <- (claimed_terms_add_up assets), <- (claimed_terms_add_up liabs).
  ring.
Qed.

Section Explain.

Variables (s e : inputs) (fy ly : dict Q).
Variables (f3 f1 f5 f10 l3 l1 l5 l10 : Q).

Hypothesis Hfy : lookup fy "3M" = Some f3 /\ lookup fy "1Y" = Some f1
                 /\ lookup fy "5Y" = Some f5 /\ lookup fy "10Y" = Some f10.
Hypothesis Hly : lookup ly "3M" = Some l3 /\ lookup ly "1Y" = Some l1
                 /\ lookup ly "5Y" = Some l5 /\ lookup ly "10Y" = Some l10.

Ltac run_explain :=
  destruct Hfy as (F3 & F1 & F5 & F10); destruct Hly as (L3 & L1 & L5 & L10);
  unfold CorpFin.pl_explain, CorpFin.rate_map, yield_codes;
  simpl CorpFin.make_sheet; simpl dict_comp; unfold getitem; simpl lookup at 1;
  rewrite F3, F1, F5, F10, L3, L1, L5, L10;
  cbn -[Qplus Qminus Qmult Qdiv].

(** With every business unit, the asset rows are labelled 0-2 and the
    liability rows 3-5: the starting NII, the rate variance and the ending
    NII are Series of six NaN, and the identity does not hold, whatever the
    balances and the rates. *)
Lemma pl_explain_all_units :
  exists ex,
    CorpFin.pl_explain s e "All" fy ly = Ok ex
    /\ CorpFin.starting_nii ex = Pandas.Ser (all_nan 0 6)
    /\ CorpFin.rate_variance ex = Pandas.Ser (all_nan 0 6)
    /\ CorpFin.ending_nii ex = Pandas.Ser (all_nan 0 6)
    /\ CorpFin.identity_holds ex = false.
Proof.
  run_explain. eexists. split; [reflexivity|]. repeat split.
Qed.

(** The same with the unit Corporate: rows 0-2 against rows 4-5. *)
Lemma pl_explain_corporate :
  exists ex,
    CorpFin.pl_explain s e "Corporate" fy ly = Ok ex
    /\ CorpFin.starting_nii ex
       = Pandas.Ser [(0%nat, None); (1%nat, None); (2%nat, None);
                     (4%nat, None); (5%nat, None)]
    /\ CorpFin.ending_nii ex = CorpFin.starting_nii ex
    /\ CorpFin.rate_variance ex = CorpFin.starting_nii ex
    /\ CorpFin.identity_holds ex = false.
Proof.
  run_explain. eexists. split; [reflexivity|]. repeat split.
Qed.

(** The volume and mix variances are numbers, computed row by row through
    [zip], and are the ones the specification defines. *)
Lemma pl_explain_volume_and_mix :
  exists ex,
    CorpFin.pl_explain s e "All" fy ly = Ok ex
    /\ CorpFin.volume_variance ex
       == Claimed.volume_variance (matched_assets s e fy ly) (matched_liabs s e fy ly)
    /\ CorpFin.mix_variance ex
       == Claimed.mix_variance (matched_assets s e fy ly) (matched_liabs s e fy ly).
Proof.
  unfold matched_assets, matched_liabs, get.
  run_explain. eexists. split; [reflexivity|].
  unfold Claimed.volume_variance, Claimed.mix_variance, Claimed.netted,
    Claimed.total, qsum.
  split; simpl; ring.
Qed.

(** With the unit Retail only Deposits, row 3, is left: every term is a
    one-row Series or a number, and the identity holds. *)
Lemma pl_explain_retail :
  exists ex,
    CorpFin.pl_explain s e "Retail" fy ly = Ok ex
    /\ CorpFin.identity_holds ex = true.
Proof.
  run_explain. eexists. split; [reflexivity|].
  unfold CorpFin.identity_holds. cbn -[Qplus Qminus Qmult Qdiv Qeq_bool].
  rewrite andb_true_r. apply Qeq_bool_iff. unfold qsum. simpl fold_left. ring.
Qed.

End Explain.

(** C1. Evaluation at the default start and end balances, every business
    unit, and the sample first and last yields.  The code multiplies the
    whole column of start balances by each rate change in turn and adds the
    products, so the asset side of the rate variance is a Series whose row i
    is balance_start[i] x (sum of all rate changes): -0.3, -0.21, -0.09,
    whereas the sum of balance_start[i] x (rate_end[i] - rate_start[i]) over
    the assets is 0.25.  Subtracting the liability Series, labelled 3-5,
    from the asset Series, labelled 0-2, leaves NaN in every row: starting
    NII, rate variance and ending NII are Series of six NaN and the identity
    does not hold, whereas the five terms as defined are numbers that add
    up. *)
Theorem C1_attribution_terms_are_nan_series :
  exists ex start_df r0_map r1_map x0 x1 x2,
    CorpFin.pl_explain default_start default_end "All" sample_fy sample_ly = Ok ex
    /\ CorpFin.starting_nii ex = Pandas.Ser (all_nan 0 6)
    /\ CorpFin.rate_variance ex = Pandas.Ser (all_nan 0 6)
    /\ CorpFin.ending_nii ex = Pandas.Ser (all_nan 0 6)
    /\ CorpFin.identity_holds ex = false
    /\ CorpFin.make_sheet default_start default_start = Ok start_df
    /\ CorpFin.rate_map sample_fy = Ok r0_map
    /\ CorpFin.rate_map sample_ly = Ok r1_map
    /\ CorpFin.column_times_rate_changes
         (CorpFin.col CorpFin.B0 (CorpFin.isin CorpFin.asset_types start_df))
         (CorpFin.codes (CorpFin.isin CorpFin.asset_types start_df))
         r0_map r1_map
       = Ok (Pandas.Ser [(0%nat, Some x0); (1%nat, Some x1); (2%nat, Some x2)])
    /\ x0 == -3 # 10 /\ x1 == -21 # 100 /\ x2 == -9 # 100
    /\ Claimed.rate_variance
         (matched_assets default_start default_end sample_fy sample_ly) []
       == 1 # 4
    /\ Claimed.starting_nii
         (matched_assets default_start default_end sample_fy sample_ly)
         (matched_liabs default_start default_end sample_fy sample_ly)
       + Claimed.rate_variance
           (matched_assets default_start default_end sample_fy sample_ly)
           (matched_liabs default_start default_end sample_fy sample_ly)
       + CorpFin.volume_variance ex + CorpFin.mix_variance ex
       == Claimed.ending_nii
            (matched_assets default_start default_end sample_fy sample_ly)
            (matched_liabs default_start default_end sample_fy sample_ly).
Proof.
  do 7 eexists.
  split; [vm_compute; reflexivity|].
  split; [reflexivity|]. split; [reflexivity|]. split; [reflexivity|].
  split; [reflexivity|].
  split; [vm_compute; reflexivity|].
  split; [vm_compute; reflexivity|].
  split; [vm_compute; reflexivity|].
  split; [vm_compute; reflexivity|].
  repeat split; vm_compute; reflexivity.
Qed.

(* ===================================================================== *)
(** ** corp_fin.py: what the gap of a bucket is, for every ledger *)
(* ===================================================================== *)

Section SeriesByLabel.

Import Pandas.

Variable leb : string -> string -> bool.

Lemma In_insert_sorted (x y : string) (l : list string) :
  In y (insert_sorted leb x l) <-> y = x \/ In y l.
Proof.
  induction l as [|z l IH]; simpl.
  - intuition.
  - destruct (leb x z); simpl; [intuition | rewrite IH; intuition].
Qed.

Lemma In_sort (y : string) (l : list string) : In y (sort leb l) <-> In y l.
Proof.
  induction l as [|x l IH]; simpl.
  - reflexivity.
  - rewrite In_insert_sorted, IH. intuition.
Qed.

Lemma In_unique (y : string) (l : list string) :
  In y (unique String.eqb l) <-> In y l.
Proof.
  clear leb.
  induction l as [|x l IH]; simpl.
  - reflexivity.
  - rewrite filter_In, IH.
    destruct (String.eqb_spec y x) as [->|Hne]; simpl; intuition congruence.
Qed.

Lemma In_union (y : string) (a b : list string) :
  In y (union String.eqb leb a b) <-> In y a \/ In y b.
Proof.
  unfold union. destruct a as [|x a]; [simpl; intuition|].
  destruct b as [|z b]; [simpl; intuition|].
  rewrite In_sort, In_unique, in_app_iff. reflexivity.
Qed.

Lemma loc_not_in (s : series string) (l : string) :
  ~ In l (index s) -> loc String.eqb s l = None.
Proof.
  induction s as [|[l' c] s IH]; simpl; intro H.
  - reflexivity.
  - destruct (String.eqb_spec l l') as [->|Hne]; [tauto | apply IH; tauto].
Qed.

Lemma loc_in (s : series string) (l : string) :
  In l (index s) -> exists c, loc String.eqb s l = Some c.
Proof.
  induction s as [|[l' c] s IH]; simpl; intro H.
  - destruct H.
  - destruct (String.eqb_spec l l') as [->|Hne]; [eexists; reflexivity|].
    apply IH. destruct H; [congruence | assumption].
Qed.

Lemma loc_some_in (s : series string) (l : string) (c : cell) :
  loc String.eqb s l = Some c -> In l (index s).
Proof.
  induction s as [|[l' c'] s IH]; simpl; intro H.
  - discriminate.
  - destruct (String.eqb_spec l l') as [->|Hne]; [left; reflexivity|].
    right. apply IH. assumption.
Qed.

Lemma loc_map_keys (g : string -> cell) (ks : list string) (b : string) :
  loc String.eqb (map (fun k => (k, g k)) ks) b
  = if existsb (String.eqb b) ks then Some (g b) else None.
Proof.
  induction ks as [|k ks IH]; simpl.
  - reflexivity.
  - destruct (String.eqb_spec b k) as [->|Hne]; simpl; [reflexivity | apply IH].
Qed.

Lemma index_eqb_eq (a b : list string) :
  index_eqb String.eqb a b = true -> a = b.
Proof.
  revert b. induction a as [|x a IH]; intros [|y b]; simpl; intro H;
    try reflexivity; try discriminate.
  apply andb_prop in H. destruct H as [H1 H2].
  apply String.eqb_eq in H1. subst. f_equal. apply IH. assumption.
Qed.

Lemma loc_combine (f : Q -> Q -> Q) (a b : series string) (l : string) :
  index a = index b ->
  loc String.eqb
      (map (fun p => (fst (fst p), cell_op f (snd (fst p)) (snd (snd p))))
           (combine a b)) l
  = match loc String.eqb a l, loc String.eqb b l with
    | Some x, Some y => Some (cell_op f x y)
    | _, _ => None
    end.
Proof.
  revert b. induction a as [|[la ca] a IH]; intros [|[lb cb] b]; simpl; intro H;
    try reflexivity; try discriminate.
  injection H as -> H.
  destruct (String.eqb l lb); [reflexivity | apply IH; assumption].
Qed.

Lemma loc_reindex (labels : list string) (s : series string) (l : string) :
  loc String.eqb (reindex String.eqb labels s) l
  = if existsb (String.eqb l) labels
    then Some (match loc String.eqb s l with Some c => c | None => None end)
    else None.
Proof.
  unfold reindex.
  apply (loc_map_keys
           (fun k => match loc String.eqb s k with Some c => c | None => None end)).
Qed.

Lemma index_reindex (labels : list string) (s : series string) :
  index (reindex String.eqb labels s) = labels.
Proof.
  unfold index, reindex. rewrite map_map. simpl. apply map_id.
Qed.

Lemma existsb_eqb_In (l : string) (ls : list string) :
  existsb (String.eqb l) ls = true <-> In l ls.
Proof.
  rewrite existsb_exists. split.
  - intros [x [Hx He]]. apply String.eqb_eq in He. subst. assumption.
  - intro H. exists l. split; [assumption | apply String.eqb_refl].
Qed.

(** A row of [a - b]: the difference where both sides have the label, NaN
    where only one side has it, no row where neither has it. *)
Lemma loc_align_op (f : Q -> Q -> Q) (a b : series string) (l : string) :
  loc String.eqb (align_op String.eqb leb f a b) l
  = match loc String.eqb a l, loc String.eqb b l with
    | Some x, Some y => Some (cell_op f x y)
    | None, None => None
    | _, _ => Some None
    end.
Proof.
  unfold align_op.
  destruct (index_eqb String.eqb (index a) (index b)) eqn:E.
  - apply index_eqb_eq in E. rewrite loc_combine by assumption.
    destruct (loc String.eqb a l) as [x|] eqn:Ea;
      destruct (loc String.eqb b l) as [y|] eqn:Eb; try reflexivity.
    + apply loc_some_in in Ea. rewrite E in Ea.
      apply loc_in in Ea. destruct Ea as [c Hc]. congruence.
    + apply loc_some_in in Eb. rewrite <- E in Eb.
      apply loc_in in Eb. destruct Eb as [c Hc]. congruence.
  - rewrite loc_combine by (rewrite !index_reindex; reflexivity).
    rewrite !loc_reindex.
    destruct (existsb (String.eqb l) (union String.eqb leb (index a) (index b)))
      eqn:Eu.
    + apply existsb_eqb_In, In_union in Eu.
      destruct (loc String.eqb a l) as [x|] eqn:Ea;
        destruct (loc String.eqb b l) as [y|] eqn:Eb; try reflexivity.
      * destruct x; reflexivity.
      * destruct Eu as [Hin|Hin]; apply loc_in in Hin; destruct Hin; congruence.
    + assert (Hn : ~ (In l (index a) \/ In l (index b))).
      { rewrite <- In_union, <- existsb_eqb_In. congruence. }
      rewrite !loc_not_in by tauto. reflexivity.
Qed.

End SeriesByLabel.

Lemma present_buckets_In (df : list (row * option string)) (b : string) :
  In b (CorpFin.present_buckets df) <-> existsb (CorpFin.in_bucket b) df = true.
Proof.
  induction df as [|[r [k|]] df IH]; simpl.
  - split; [tauto | discriminate].
  - unfold CorpFin.in_bucket at 1. simpl.
    rewrite orb_true_iff, <- IH, String.eqb_eq. reflexivity.
  - unfold CorpFin.in_bucket at 1. simpl. exact IH.
Qed.

Lemma bucket_sum_is_claimed (tm : dict string) (sh : sheet) (b : string) :
  qsum (map (fun r => Balance (fst r))
            (filter (CorpFin.in_bucket b) (CorpFin.with_bucket tm sh)))
  = Claimed.bucket_balance tm sh b.
Proof.
  unfold Claimed.bucket_balance, CorpFin.with_bucket. f_equal.
  induction sh as [|r sh IH]; simpl.
  - reflexivity.
  - unfold CorpFin.in_bucket at 1. simpl.
    destruct (lookup tm (Type_ r)) as [k|]; [destruct (String.eqb k b)|];
      simpl; rewrite IH; reflexivity.
Qed.

(** One row per bucket that occurs in the sheet, holding its balance sum. *)
Lemma loc_groupby_sum (tm : dict string) (sh : sheet) (b : string) :
  Pandas.loc String.eqb (CorpFin.groupby_sum (CorpFin.with_bucket tm sh)) b
  = if present tm sh b then Some (Some (Claimed.bucket_balance tm sh b)) else None.
Proof.
  unfold CorpFin.groupby_sum.
  rewrite (loc_map_keys
             (fun k => Some (qsum (map (fun r => Balance (fst r))
                                       (filter (CorpFin.in_bucket k)
                                               (CorpFin.with_bucket tm sh)))))).
  rewrite bucket_sum_is_claimed. unfold present.
  destruct (existsb (CorpFin.in_bucket b) (CorpFin.with_bucket tm sh)) eqn:E.
  - apply present_buckets_In in E.
    apply (In_unique b), (In_sort String.leb b), existsb_eqb_In in E.
    rewrite E. reflexivity.
  - destruct (existsb (String.eqb b) _) eqn:E'; [|reflexivity].
    apply existsb_eqb_In, In_sort, In_unique, present_buckets_In in E'.
    congruence.
Qed.

Lemma lookup_map_keys {V : Type} (g : string -> V) (ks : list string) (b : string) :
  In b ks -> lookup (map (fun k => (k, g k)) ks) b = Some (g b).
Proof.
  induction ks as [|k ks IH]; simpl; intro H.
  - destruct H.
  - destruct (String.eqb_spec b k) as [->|Hne]; [reflexivity|].
    apply IH. destruct H; [congruence | assumption].
Qed.

(** For every ledger, bucket map and duration map: a bucket of the duration
    map reports assets minus liabilities when both sides have a position
    in it, and 0 otherwise. *)
Lemma gap_for_value (tm : dict string) (dm : dict Q) (assets liabs : sheet)
    (b : string) :
  In b (keys dm) ->
  lookup (CorpFin.gap_for tm dm assets liabs) b
  = Some (if present tm assets b && present tm liabs b
          then Claimed.gap tm assets liabs b else 0).
Proof.
  intro Hb. unfold CorpFin.gap_for, Pandas.fillna, Pandas.reindex.
  rewrite map_map. simpl.
  rewrite (lookup_map_keys
             (fun k => match match Pandas.loc String.eqb
                                    (Pandas.align_op String.eqb String.leb Qminus
                                       (CorpFin.groupby_sum (CorpFin.with_bucket tm assets))
                                       (CorpFin.groupby_sum (CorpFin.with_bucket tm liabs))) k
                             with Some c => c | None => None end
                       with Some x => x | None => 0 end)) by assumption.
  rewrite loc_align_op, !loc_groupby_sum.
  destruct (present tm assets b), (present tm liabs b); reflexivity.
Qed.

(** A bucket with liabilities and no asset reports 0, for every ledger. *)
Lemma gap_of_liability_only_bucket (tm : dict string) (dm : dict Q)
    (assets liabs : sheet) (b : string) :
  In b (keys dm) -> present tm assets b = false ->
  lookup (CorpFin.gap_for tm dm assets liabs) b = Some 0.
Proof.
  intros Hb Hp. rewrite gap_for_value by assumption. rewrite Hp. reflexivity.
Qed.

(** A bucket with no position at all is in the result and reports 0. *)
Lemma gap_of_empty_bucket (tm : dict string) (dm : dict Q)
    (assets liabs : sheet) (b : string) :
  In b (keys dm) -> present tm assets b = false -> present tm liabs b = false ->
  In b (map fst (CorpFin.gap_for tm dm assets liabs))
  /\ lookup (CorpFin.gap_for tm dm assets liabs) b = Some 0.
Proof.
  intros Hb Ha Hl. split.
  - rewrite gap_for_buckets. assumption.
  - apply gap_of_liability_only_bucket; assumption.
Qed.

(* ===================================================================== *)
(** ** Rounding *)
(* ===================================================================== *)

Lemma round_half_even_comp (q q' : Q) :
  q == q' -> round_half_even q = round_half_even q'.
Proof.
  intro H. unfold round_half_even.
  rewrite (Qfloor_comp q q' H).
  assert (Hc : (q - inject_Z (Qfloor q') ?= 1 # 2)
               = (q' - inject_Z (Qfloor q') ?= 1 # 2)).
  { apply Qcompare_comp; [rewrite H; reflexivity | reflexivity]. }
  rewrite Hc. reflexivity.
Qed.

Lemma round_half_even_of_Z (z : Z) : round_half_even (inject_Z z) = z.
Proof.
  unfold round_half_even. rewrite Qfloor_Z.
  assert (Hc : (inject_Z z - inject_Z z ?= 1 # 2) = Lt).
  { apply Qlt_alt. setoid_replace (inject_Z z - inject_Z z) with 0 by ring.
    reflexivity. }
  rewrite Hc. reflexivity.
Qed.

(** Rounding to the nearest integer moves a number by at most a half. *)
Lemma round_half_even_error (q : Q) :
  - (1 # 2) <= inject_Z (round_half_even q) - q <= 1 # 2.
Proof.
  unfold round_half_even.
  pose proof (Qfloor_le q) as Hlo. pose proof (Qlt_floor q) as Hhi.
  rewrite inject_Z_plus in Hhi.
  destruct (q - inject_Z (Qfloor q) ?= 1 # 2) eqn:E.
  - apply Qeq_alt in E.
    destruct (Z.even (Qfloor q)).
    + split.
      * setoid_replace (inject_Z (Qfloor q) - q)
          with (- (q - inject_Z (Qfloor q))) by ring.
        rewrite E. apply Qle_refl.
      * apply Qle_trans with 0; [|discriminate].
        setoid_replace (inject_Z (Qfloor q) - q)
          with (- (q - inject_Z (Qfloor q))) by ring.
        rewrite E. discriminate.
    + rewrite inject_Z_plus. split.
      * apply Qle_trans with 0; [discriminate|].
        setoid_replace (inject_Z (Qfloor q) + inject_Z 1 - q)
          with (1 - (q - inject_Z (Qfloor q))) by ring.
        rewrite E. discriminate.
      * setoid_replace (inject_Z (Qfloor q) + inject_Z 1 - q)
          with (1 - (q - inject_Z (Qfloor q))) by ring.
        rewrite E. discriminate.
  - apply Qlt_alt in E. split.
    + apply Qlt_le_weak.
      apply Qplus_lt_l with (z := q - inject_Z (Qfloor q) + (1 # 2)).
      setoid_replace (- (1 # 2) + (q - inject_Z (Qfloor q) + (1 # 2)))
        with (q - inject_Z (Qfloor q)) by ring.
      setoid_replace (inject_Z (Qfloor q) - q + (q - inject_Z (Qfloor q) + (1 # 2)))
        with (1 # 2) by ring.
      assumption.
    + apply Qle_trans with 0; [|discriminate].
      apply Qplus_le_l with (z := q). 
      setoid_replace (inject_Z (Qfloor q) - q + q) with (inject_Z (Qfloor q)) by ring.
      setoid_replace (0 + q) with q by ring. assumption.
  - apply Qgt_alt in E. rewrite inject_Z_plus. split.
    + apply Qle_trans with 0; [discriminate|].
      apply Qplus_le_l with (z := q).
      setoid_replace (inject_Z (Qfloor q) + inject_Z 1 - q + q)
        with (inject_Z (Qfloor q) + inject_Z 1) by ring.
      setoid_replace (0 + q) with q by ring.
      apply Qlt_le_weak. assumption.
    + apply Qlt_le_weak.
      apply Qplus_lt_l with (z := q - inject_Z (Qfloor q) - (1 # 2)).
      setoid_replace (inject_Z (Qfloor q) + inject_Z 1 - q
                      + (q - inject_Z (Qfloor q) - (1 # 2))) with (1 # 2) by ring.
      setoid_replace ((1 # 2) + (q - inject_Z (Qfloor q) - (1 # 2)))
        with (q - inject_Z (Qfloor q)) by ring.
      assumption.
Qed.

Lemma round2_comp (q q' : Q) : q == q' -> round2 q = round2 q'.
Proof.
  intro H. unfold round2.
  rewrite (round_half_even_comp (q * 100) (q' * 100)); [reflexivity|].
  rewrite H. reflexivity.
Qed.

Lemma round2_zero (q : Q) : q == 0 -> round2 q == 0.
Proof.
  intro H. rewrite (round2_comp q 0 H). reflexivity.
Qed.

(** [round(x, 2)] moves a number by at most half a hundredth. *)
Lemma round2_error (q : Q) : - (1 # 200) <= round2 q - q <= 1 # 200.
Proof.
  unfold round2.
  destruct (round_half_even_error (q * 100)) as [Hlo Hhi].
  set (z := inject_Z (round_half_even (q * 100))) in *.
  split.
  - apply Qmult_le_r with (z := 100); [reflexivity|].
    setoid_replace (- (1 # 200) * 100) with (- (1 # 2)) by reflexivity.
    setoid_replace ((z / 100 - q) * 100) with (z - q * 100) by field.
    assumption.
  - apply Qmult_le_r with (z := 100); [reflexivity|].
    setoid_replace ((1 # 200) * 100) with (1 # 2) by reflexivity.
    setoid_replace ((z / 100 - q) * 100) with (z - q * 100) by field.
    assumption.
Qed.

Lemma round2_near (q e : Q) :
  q == e -> - (1 # 200) <= round2 q - e <= 1 # 200.
Proof.
  intro H. rewrite <- H. apply round2_error.
Qed.

(* ===================================================================== *)
(** ** The subscripting helper [calc] *)
(* ===================================================================== *)

(** X1. When every code of the sheet has a yield, [calc] of corp3.py and
    corp_fin.py returns one row per position, in the order of the sheet,
    with the rate in percent and an amount equal to balance times yield. *)
Theorem X1_calc_prices_every_row :
  forall (sh : sheet) (yields_map : dict Q) (fld : string),
    (forall r, In r sh -> exists y, lookup yields_map (Code r) = Some y) ->
    exists rows,
      Corp3.calc sh yields_map fld = Ok rows
      /\ CorpFin.calc sh yields_map fld = Ok rows
      /\ map src rows = sh
      /\ Forall (fun cr =>
                   Field cr = fld
                   /\ exists y, lookup yields_map (Code (src cr)) = Some y
                                /\ Rate_pct cr = y * 100
                                /\ Amount cr == Balance (src cr) * y) rows.
Proof.
  intros sh m fld. unfold CorpFin.calc, Corp3.calc.
  induction sh as [|r sh IH]; intro H.
  - exists []. repeat split. constructor.
  - destruct IH as (rows & E & _ & Hsrc & Hall).
    { intros r0 Hr0. apply H. right. assumption. }
    destruct (H r) as [y Hy]; [left; reflexivity|].
    simpl mapM. unfold getitem at 1 3. rewrite Hy, E. simpl.
    eexists. split; [reflexivity|]. split; [reflexivity|].
    split; [simpl; rewrite Hsrc; reflexivity|].
    constructor; [|assumption].
    simpl. split; [reflexivity|]. exists y.
    split; [assumption|]. split; [reflexivity|]. field.
Qed.

Lemma X1_calc_witness :
  exists rows,
    Corp3.calc (assets_of default_inputs) sample_yields "Income" = Ok rows
    /\ map src rows = assets_of default_inputs.
Proof.
  destruct (X1_calc_prices_every_row (assets_of default_inputs) sample_yields "Income")
    as (rows & E & _ & Hsrc & _).
  - intros r Hr. simpl in Hr.
    destruct Hr as [<-|[<-|[<-|[]]]]; eexists; reflexivity.
  - exists rows. split; assumption.
Defined.

(** X2. [calc] raises [KeyError] with the code of the first row, in sheet
    order, whose code has no yield; no frame is returned, whatever follows
    that row. *)
Theorem X2_calc_names_first_absent_code :
  forall (before after : sheet) (r : row) (yields_map : dict Q) (fld : string),
    (forall r0, In r0 before -> exists y, lookup yields_map (Code r0) = Some y) ->
    lookup yields_map (Code r) = None ->
    Corp3.calc (before ++ r :: after) yields_map fld = KeyError (Code r)
    /\ CorpFin.calc (before ++ r :: after) yields_map fld = KeyError (Code r).
Proof.
  intros before after r m fld Hb Hr.
  unfold CorpFin.calc, Corp3.calc.
  induction before as [|r0 before IH].
  - simpl. unfold getitem. rewrite Hr. split; reflexivity.
  - destruct IH as [E _].
    { intros r1 Hr1. apply Hb. right. assumption. }
    destruct (Hb r0) as [y Hy]; [left; reflexivity|].
    simpl app. simpl mapM. unfold getitem at 1 3. rewrite Hy, E.
    split; reflexivity.
Qed.

Lemma X2_calc_witness :
  Corp3.calc (mkRow "Loans" 120 "GS5" :: mkRow "Notes" 10 "GS2"
              :: [mkRow "Swaps" 5 "GS30"])
             sample_yields "Income" = KeyError "GS2".
Proof.
  apply (X2_calc_names_first_absent_code
           [mkRow "Loans" 120 "GS5"] [mkRow "Swaps" 5 "GS30"]
           (mkRow "Notes" 10 "GS2") sample_yields "Income").
  - intros r0 [<-|[]]. eexists. reflexivity.
  - reflexivity.
Defined.

(* ===================================================================== *)
(** ** corp.py: the shifted curve and the scenario table *)
(* ===================================================================== *)

Lemma setitem_fresh {V : Type} (d : dict V) (k : string) (v : V) :
  ~ In k (keys d) -> setitem d k v = d ++ [(k, v)].
Proof.
  induction d as [|[k' v'] d IH]; simpl; intro H.
  - reflexivity.
  - destruct (String.eqb_spec k k') as [->|Hne]; [tauto|].
    rewrite IH by tauto. reflexivity.
Qed.

Lemma dict_map_items_from {V W : Type} (f : string -> V -> W) (d : dict V) :
  forall acc : dict W,
    NoDup (keys acc ++ keys d) ->
    fold_left (fun a kv => setitem a (fst kv) (f (fst kv) (snd kv))) d acc
    = acc ++ map (fun kv => (fst kv, f (fst kv) (snd kv))) d.
Proof.
  induction d as [|[k v] d IH]; intros acc Hnd; simpl.
  - rewrite app_nil_r. reflexivity.
  - simpl in Hnd.
    rewrite setitem_fresh.
    + rewrite IH.
      * rewrite <- app_assoc. reflexivity.
      * unfold keys. rewrite map_app. simpl. rewrite <- app_assoc. simpl.
        exact Hnd.
    + apply NoDup_remove_2 in Hnd. intro Hin. apply Hnd.
      apply in_or_app. left. assumption.
Qed.

Lemma dict_map_items_nodup {V W : Type} (f : string -> V -> W) (d : dict V) :
  NoDup (keys d) ->
  dict_map_items f d = map (fun kv => (fst kv, f (fst kv) (snd kv))) d.
Proof.
  intro H. unfold dict_map_items, items.
  rewrite dict_map_items_from; [reflexivity | exact H].
Qed.

Lemma lookup_map_values {V W : Type} (g : string -> V -> W) (d : dict V) (c : string) :
  lookup (map (fun kv => (fst kv, g (fst kv) (snd kv))) d) c
  = option_map (g c) (lookup d c).
Proof.
  induction d as [|[k v] d IH]; simpl.
  - reflexivity.
  - destruct (String.eqb_spec c k) as [->|Hne]; [reflexivity | exact IH].
Qed.

Lemma corp_shifted_lookup (yc : dict Q) (s : Q) :
  NoDup (keys yc) ->
  keys (Corp.shifted yc s) = keys yc
  /\ forall c, lookup (Corp.shifted yc s) c
               = option_map (fun r => r + s) (lookup yc c).
Proof.
  intro Hnd. unfold Corp.shifted.
  rewrite dict_map_items_nodup by assumption. split.
  - unfold keys. rewrite map_map. reflexivity.
  - intro c. apply (lookup_map_values (fun _ r => r + s)).
Qed.

(** X3. For a curve with distinct keys, the shifted curve of corp.py has
    the same codes in the same order, each yield raised by the shift; a
    code absent from the curve stays absent. *)
Theorem X3_corp_shifted_keeps_codes :
  forall (yields_current : dict Q) (shift : Q),
    NoDup (keys yields_current) ->
    keys (Corp.shifted yields_current shift) = keys yields_current
    /\ forall c, lookup (Corp.shifted yields_current shift) c
                 = option_map (fun r => r + shift) (lookup yields_current c).
Proof.
  intros yc s Hnd. apply corp_shifted_lookup. assumption.
Qed.

Lemma sample_yields_nodup : NoDup (keys sample_yields).
Proof.
  repeat constructor; simpl; intuition discriminate.
Qed.

Lemma X3_corp_shifted_witness :
  keys (Corp.shifted sample_yields (1 # 100)) = keys sample_yields
  /\ forall c, lookup (Corp.shifted sample_yields (1 # 100)) c
               = option_map (fun r => r + (1 # 100)) (lookup sample_yields c).
Proof.
  apply (X3_corp_shifted_keeps_codes sample_yields (1 # 100)).
  apply sample_yields_nodup.
Defined.

Lemma corp_calculate_shifted (yc : dict Q) (s : Q) (sh : sheet) (field : string) :
  NoDup (keys yc) ->
  column_sum (Corp.calculate sh (Corp.shifted yc s) field)
  == column_sum (Corp.calculate sh yc field) + s * covered_balance yc sh.
Proof.
  intro Hnd.
  destruct (corp_shifted_lookup yc s Hnd) as [_ Hl].
  unfold covered_balance.
  induction sh as [|r sh IH].
  - unfold column_sum, qsum. simpl. ring.
  - simpl Corp.calculate. rewrite !column_sum_cons, IH. simpl.
    unfold get. rewrite Hl.
    destruct (lookup yc (Code r)) as [y|]; simpl.
    + rewrite qsum_cons. field.
    + field.
Qed.

(** X4. In corp.py, shifting the curve by [s] moves the NII by [s] times
    the net balance of the positions whose code is in the curve: a position
    priced off an absent code keeps rate 0 under every shift. *)
Theorem X4_corp_shift_moves_covered_positions_only :
  forall (assets liabilities : sheet) (yields_current : dict Q) (s : Q),
    NoDup (keys yields_current) ->
    Corp.ii assets liabilities (Corp.shifted yields_current s)
    == Corp.ii assets liabilities yields_current
       + s * (covered_balance yields_current assets
              - covered_balance yields_current liabilities).
Proof.
  intros A L yc s Hnd. unfold Corp.ii, Corp.income, Corp.expense.
  rewrite !corp_calculate_shifted by assumption. ring.
Qed.

Lemma X4_corp_shift_witness :
  Corp.ii (mkRow "Notes" 10 "GS2" :: assets_of default_inputs)
          (liabs_of default_inputs) (Corp.shifted sample_yields (1 # 100))
  == Corp.ii (mkRow "Notes" 10 "GS2" :: assets_of default_inputs)
             (liabs_of default_inputs) sample_yields
     + (1 # 100) * (covered_balance sample_yields
                      (mkRow "Notes" 10 "GS2" :: assets_of default_inputs)
                    - covered_balance sample_yields (liabs_of default_inputs)).
Proof.
  apply (X4_corp_shift_moves_covered_positions_only
           (mkRow "Notes" 10 "GS2" :: assets_of default_inputs)
           (liabs_of default_inputs) sample_yields (1 # 100)).
  apply sample_yields_nodup.
Defined.

(** X5. The scenario table of corp.py never fails and has one row per
    preset, in the order of the preset table; the NII of a row is within
    0.005 of the NII on the current curve plus the preset shift times the
    net balance of the positions whose code is in the curve. *)
Theorem X5_corp_scenario_table :
  forall (pre : dict Q) (assets liabilities : sheet) (yields_current : dict Q),
    NoDup (keys yields_current) ->
    map fst (Corp.sc_df_for pre assets liabilities yields_current) = keys pre
    /\ Forall2 (fun nv row =>
                  fst row = fst nv
                  /\ - (1 # 200)
                     <= snd row
                        - (Corp.ii assets liabilities yields_current
                           + snd nv * (covered_balance yields_current assets
                                       - covered_balance yields_current liabilities))
                     <= 1 # 200)
               (items pre)
               (Corp.sc_df_for pre assets liabilities yields_current).
Proof.
  intros pre A L yc Hnd. unfold Corp.sc_df_for, items. split.
  - rewrite map_map. reflexivity.
  - induction pre as [|[n v] pre IH]; simpl; constructor; [|exact IH].
    simpl. split; [reflexivity|].
    apply round2_near. unfold Corp.ii, Corp.income, Corp.expense.
    rewrite !corp_calculate_shifted by assumption. ring.
Qed.

Lemma X5_corp_scenario_table_witness :
  map fst (Corp.sc_df (assets_of default_inputs) (liabs_of default_inputs)
                      sample_yields)
  = keys Corp.preset.
Proof.
  apply (X5_corp_scenario_table Corp.preset (assets_of default_inputs)
           (liabs_of default_inputs) sample_yields).
  apply sample_yields_nodup.
Defined.

(* ===================================================================== *)
(** ** corp2.py: the shifted curve, the regulatory table, the waterfall *)
(* ===================================================================== *)

Section Corp2Curve.

Variables (yc : dict Q) (y3m y1 y5 y10 : Q).

Hypothesis Hyc : lookup yc "GS3M" = Some y3m /\ lookup yc "GS1" = Some y1
                 /\ lookup yc "GS5" = Some y5 /\ lookup yc "GS10" = Some y10.

Lemma shocked_curve (shock : dict Q) :
  dict_comp (Corp2.shocked_entry yc shock) yield_codes []
  = Ok [("GS3M", y3m + shock_at shock "3M"); ("GS1", y1 + shock_at shock "1Y");
        ("GS5", y5 + shock_at shock "5Y"); ("GS10", y10 + shock_at shock "10Y")].
Proof.
  destruct Hyc as (H1 & H2 & H3 & H4).
  unfold yield_codes, shock_at. simpl dict_comp. unfold Corp2.shocked_entry.
  destruct (lookup shock "all") as [a|] eqn:Ea; unfold getitem;
    rewrite ?Ea, H1, H2, H3, H4; simpl; reflexivity.
Qed.

Lemma custom_curve (b : Q) :
  Corp2.shifts "Custom" yc b
  = Ok [("GS3M", y3m + b); ("GS1", y1 + b); ("GS5", y5 + b); ("GS10", y10 + b)].
Proof.
  destruct Hyc as (H1 & H2 & H3 & H4).
  unfold Corp2.shifts, yield_codes. simpl. unfold getitem.
  rewrite H1, H2, H3, H4. reflexivity.
Qed.

(** The NII of corp2.py on a curve over the four codes, per code. *)
Lemma corp2_nii_by_code (assets liabilities : sheet) (m : dict Q)
    (m3m m1 m5 m10 : Q) :
  lookup m "GS3M" = Some m3m -> lookup m "GS1" = Some m1 ->
  lookup m "GS5" = Some m5 -> lookup m "GS10" = Some m10 ->
  (forall r, In r (assets ++ liabilities) -> In (Code r) yield_codes) ->
  Corp2.nii assets liabilities m
  == net_at assets liabilities "GS3M" * m3m + net_at assets liabilities "GS1" * m1
     + net_at assets liabilities "GS5" * m5 + net_at assets liabilities "GS10" * m10.
Proof.
  intros M1 M2 M3 M4 Hc. unfold Corp2.nii.
  rewrite !calculate_by_code by (intros r Hr; apply Hc, in_or_app; auto).
  unfold get, net_at. rewrite M1, M2, M3, M4. ring.
Qed.

End Corp2Curve.

Ltac four_codes H :=
  let a := fresh "y3m" in let b := fresh "y1" in
  let c := fresh "y5" in let d := fresh "y10" in
  let A := fresh "H3m" in let B := fresh "H1" in
  let C := fresh "H5" in let D := fresh "H10" in
  destruct (H "GS3M") as [a A]; [simpl; auto|];
  destruct (H "GS1") as [b B]; [simpl; auto|];
  destruct (H "GS5") as [c C]; [simpl; auto|];
  destruct (H "GS10") as [d D]; [simpl; auto 6|].

Ltac four_codes_as H a b c d A B C D :=
  destruct (H "GS3M") as [a A]; [simpl; auto|];
  destruct (H "GS1") as [b B]; [simpl; auto|];
  destruct (H "GS5") as [c C]; [simpl; auto|];
  destruct (H "GS10") as [d D]; [simpl; auto 6|].

(** X6. The shifted curve of corp2.py, for a curve with the four codes.
    'Custom' adds the slider shift to every code.  A preset adds its
    ['all'] entry to every code or, without one, its entry for the label
    of each code, 0 for a label it does not list, and ignores the slider.
    A scenario that is neither 'Custom' nor a preset raises [KeyError]
    with its name. *)
Theorem X6_corp2_shifted_curve :
  forall (yields_current : dict Q) (bps_shift : Q),
    (forall c, In c yield_codes -> exists y, lookup yields_current c = Some y) ->
    (Corp2.shifts "Custom" yields_current bps_shift
     = Ok (map (fun c => (c, get yields_current c 0 + bps_shift)) yield_codes))
    /\ (forall name shock,
          name <> "Custom" -> lookup Corp2.reg_preset name = Some shock ->
          Corp2.shifts name yields_current bps_shift
          = Ok (map (fun c => (c, get yields_current c 0
                                  + shock_at shock (get yield_labels c "")))
                    yield_codes))
    /\ (forall name,
          name <> "Custom" -> lookup Corp2.reg_preset name = None ->
          Corp2.shifts name yields_current bps_shift = KeyError name).
Proof.
  intros yc b H. four_codes H.
  assert (Hyc : lookup yc "GS3M" = Some y3m /\ lookup yc "GS1" = Some y1
                /\ lookup yc "GS5" = Some y5 /\ lookup yc "GS10" = Some y10)
    by (repeat split; assumption).
  split; [|split].
  - rewrite (custom_curve yc y3m y1 y5 y10 Hyc). simpl. unfold get.
    rewrite H3m, H1, H5, H10. reflexivity.
  - intros name shock Hn Hs. unfold Corp2.shifts.
    apply String.eqb_neq in Hn. rewrite Hn. unfold getitem at 1. rewrite Hs.
    cbv beta iota delta [bind].
    rewrite (shocked_curve yc y3m y1 y5 y10 Hyc). simpl. unfold get.
    rewrite H3m, H1, H5, H10. reflexivity.
  - intros name Hn Hs. unfold Corp2.shifts.
    apply String.eqb_neq in Hn. rewrite Hn. unfold getitem. rewrite Hs.
    reflexivity.
Qed.

Lemma sample_yields_four_codes :
  forall c, In c yield_codes -> exists y, lookup sample_yields c = Some y.
Proof.
  intros c Hc. simpl in Hc.
  destruct Hc as [<-|[<-|[<-|[<-|[]]]]]; eexists; reflexivity.
Qed.

Lemma X6_corp2_shifted_curve_witness :
  Corp2.shifts "Custom" sample_yields custom_25bp
  = Ok (map (fun c => (c, get sample_yields c 0 + custom_25bp)) yield_codes).
Proof.
  apply (X6_corp2_shifted_curve sample_yields custom_25bp).
  apply sample_yields_four_codes.
Defined.

(** X7. The regulatory table of corp2.py, for a curve with the four codes
    and a ledger priced off them: one row per preset in the order of the
    table, each NII within 0.005 of the NII on the current curve plus,
    summed over the four codes, the net balance at the code times the shock
    at its label. *)
Theorem X7_corp2_regulatory_table :
  forall (presets : dict (dict Q)) (assets liabilities : sheet)
         (yields_current : dict Q),
    (forall c, In c yield_codes -> exists y, lookup yields_current c = Some y) ->
    (forall r, In r (assets ++ liabilities) -> In (Code r) yield_codes) ->
    exists rows,
      Corp2.reg_results_for presets assets liabilities yields_current = Ok rows
      /\ map fst rows = keys presets
      /\ Forall2 (fun ns row =>
                    - (1 # 200)
                    <= snd row
                       - (Corp2.nii assets liabilities yields_current
                          + net_at assets liabilities "GS3M" * shock_at (snd ns) "3M"
                          + net_at assets liabilities "GS1" * shock_at (snd ns) "1Y"
                          + net_at assets liabilities "GS5" * shock_at (snd ns) "5Y"
                          + net_at assets liabilities "GS10" * shock_at (snd ns) "10Y")
                    <= 1 # 200)
                 (items presets) rows.
Proof.
  intros presets A L yc H Hc. four_codes H.
  assert (Hyc : lookup yc "GS3M" = Some y3m /\ lookup yc "GS1" = Some y1
                /\ lookup yc "GS5" = Some y5 /\ lookup yc "GS10" = Some y10)
    by (repeat split; assumption).
  unfold Corp2.reg_results_for, items.
  induction presets as [|[n shock] presets IH].
  - exists []. repeat split. constructor.
  - destruct IH as (rows & E & Hk & HF).
    cbn [mapM fst snd]. rewrite E.
    rewrite (shocked_curve yc y3m y1 y5 y10 Hyc shock).
    cbv beta iota delta [bind].
    eexists. split; [reflexivity|].
    split; [simpl; rewrite Hk; reflexivity|].
    constructor; [|exact HF]. simpl snd.
    apply round2_near.
    rewrite (corp2_nii_by_code A L _ (y3m + shock_at shock "3M")
               (y1 + shock_at shock "1Y") (y5 + shock_at shock "5Y")
               (y10 + shock_at shock "10Y")) by (try reflexivity; assumption).
    rewrite (corp2_nii_by_code A L yc y3m y1 y5 y10) by assumption.
    ring.
Qed.

Lemma corp2_ledger_codes :
  forall r, In r (corp2_assets ++ corp2_liabilities) -> In (Code r) yield_codes.
Proof.
  intros r Hr. simpl in Hr.
  destruct Hr as [<-|[<-|[<-|[<-|[]]]]]; simpl; auto 6.
Qed.

Lemma X7_corp2_regulatory_table_witness :
  exists rows,
    Corp2.reg_results corp2_assets corp2_liabilities sample_yields = Ok rows
    /\ map fst rows = keys Corp2.reg_preset.
Proof.
  destruct (X7_corp2_regulatory_table Corp2.reg_preset corp2_assets
              corp2_liabilities sample_yields sample_yields_four_codes
              corp2_ledger_codes) as (rows & E & Hk & _).
  exists rows. split; assumption.
Defined.

(** X8. The waterfall of corp2.py, for two curves with the four codes and
    a ledger priced off them: each tenor bar spans the net balance at its
    code times the rate change at that code, the bars follow the order
    3M, 1Y, 5Y, 10Y, and the Total bar runs from 0 to the NII on the
    scenario curve minus the NII on the current curve. *)
Theorem X8_corp2_waterfall_reconciles :
  forall (assets liabilities : sheet) (shifts yields_current : dict Q),
    (forall c, In c yield_codes -> exists y, lookup yields_current c = Some y) ->
    (forall c, In c yield_codes -> exists y, lookup shifts c = Some y) ->
    (forall r, In r (assets ++ liabilities) -> In (Code r) yield_codes) ->
    exists b1 b2 b3 b4 t,
      Corp2.wf assets liabilities shifts yields_current
      = Ok [mkStep "Baseline" 0 0 0; b1; b2; b3; b4; t]
      /\ map Maturity [b1; b2; b3; b4; t] = ["3M"; "1Y"; "5Y"; "10Y"; "Total"]
      /\ End_ b1 - Start b1
         == net_at assets liabilities "GS3M"
            * (get shifts "GS3M" 0 - get yields_current "GS3M" 0)
      /\ End_ b2 - Start b2
         == net_at assets liabilities "GS1"
            * (get shifts "GS1" 0 - get yields_current "GS1" 0)
      /\ End_ b3 - Start b3
         == net_at assets liabilities "GS5"
            * (get shifts "GS5" 0 - get yields_current "GS5" 0)
      /\ End_ b4 - Start b4
         == net_at assets liabilities "GS10"
            * (get shifts "GS10" 0 - get yields_current "GS10" 0)
      /\ Start t = 0
      /\ End_ t == Corp2.nii assets liabilities shifts
                   - Corp2.nii assets liabilities yields_current.
Proof.
  intros A L sh yc Hy Hs Hc.
  four_codes_as Hy y3m y1 y5 y10 H3m H1 H5 H10.
  four_codes_as Hs s3m s1 s5 s10 G3m G1 G5 G10.
  pose proof (corp2_wf_rows y3m y1 y5 y10 s3m s1 s5 s10 yc sh
                (conj H3m (conj H1 (conj H5 H10)))
                (conj G3m (conj G1 (conj G5 G10))) A L) as E.
  cbv zeta in E.
  do 5 eexists. split; [exact E|]. split; [reflexivity|].
  unfold get. rewrite H3m, H1, H5, H10, G3m, G1, G5, G10.
  simpl Start. simpl End_.
  rewrite (corp2_nii_by_code A L sh s3m s1 s5 s10) by assumption.
  rewrite (corp2_nii_by_code A L yc y3m y1 y5 y10) by assumption.
  unfold net_at, Claimed.net_position, Corp2.balance_at.
  repeat split; ring.
Qed.

Lemma X8_corp2_waterfall_witness :
  exists b1 b2 b3 b4 t,
    Corp2.wf corp2_assets corp2_liabilities
      (map (fun kv => (fst kv, snd kv + custom_25bp)) sample_yields) sample_yields
    = Ok [mkStep "Baseline" 0 0 0; b1; b2; b3; b4; t]
    /\ End_ t == Corp2.nii corp2_assets corp2_liabilities
                   (map (fun kv => (fst kv, snd kv + custom_25bp)) sample_yields)
                 - Corp2.nii corp2_assets corp2_liabilities sample_yields.
Proof.
  destruct (X8_corp2_waterfall_reconciles corp2_assets corp2_liabilities
              (map (fun kv => (fst kv, snd kv + custom_25bp)) sample_yields)
              sample_yields sample_yields_four_codes)
    as (b1 & b2 & b3 & b4 & t & E & _ & _ & _ & _ & _ & _ & Ht).
  - intros c Hc. simpl in Hc.
    destruct Hc as [<-|[<-|[<-|[<-|[]]]]]; eexists; reflexivity.
  - apply corp2_ledger_codes.
  - exists b1, b2, b3, b4, t. split; assumption.
Defined.

(** X9. In the waterfall of corp2.py the displayed ΔNII of every row,
    Baseline and Total included, is within 0.005 of the span End - Start of
    its bar. *)
Theorem X9_corp2_displayed_delta_error :
  forall (assets liabilities : sheet) (shifts yields_current : dict Q),
    (forall c, In c yield_codes -> exists y, lookup yields_current c = Some y) ->
    (forall c, In c yield_codes -> exists y, lookup shifts c = Some y) ->
    exists rows,
      Corp2.wf assets liabilities shifts yields_current = Ok rows
      /\ Forall (fun r => - (1 # 200) <= dNII r - (End_ r - Start r) <= 1 # 200)
                rows.
Proof.
  intros A L sh yc Hy Hs.
  four_codes_as Hy y3m y1 y5 y10 H3m H1 H5 H10.
  four_codes_as Hs s3m s1 s5 s10 G3m G1 G5 G10.
  pose proof (corp2_wf_rows y3m y1 y5 y10 s3m s1 s5 s10 yc sh
                (conj H3m (conj H1 (conj H5 H10)))
                (conj G3m (conj G1 (conj G5 G10))) A L) as E.
  cbv zeta in E.
  eexists. split; [exact E|].
  assert (Hr : forall d e : Q,
             e == d -> - (1 # 200) <= round2 d - e <= 1 # 200).
  { intros d e He. rewrite He. apply round2_error. }
  constructor; [simpl; split; discriminate|].
  repeat constructor; simpl; apply Hr; ring.
Qed.

Lemma X9_corp2_displayed_delta_witness :
  exists rows,
    Corp2.wf corp2_assets_odd corp2_liabilities
      (map (fun kv => (fst kv, snd kv + custom_25bp)) sample_yields) sample_yields
    = Ok rows
    /\ Forall (fun r => - (1 # 200) <= dNII r - (End_ r - Start r) <= 1 # 200) rows.
Proof.
  apply (X9_corp2_displayed_delta_error corp2_assets_odd corp2_liabilities
           (map (fun kv => (fst kv, snd kv + custom_25bp)) sample_yields)
           sample_yields sample_yields_four_codes).
  intros c Hc. simpl in Hc.
  destruct Hc as [<-|[<-|[<-|[<-|[]]]]]; eexists; reflexivity.
Defined.

(* ===================================================================== *)
(** ** corp3.py: the stressed NII and the two scenario tables *)
(* ===================================================================== *)

Section Corp3Uniform.

Variables (yc : dict Q) (y3m y1 y5 y10 : Q).
Variables (assets liabs : sheet).

Hypothesis Hyc : lookup yc "GS3M" = Some y3m /\ lookup yc "GS1" = Some y1
                 /\ lookup yc "GS5" = Some y5 /\ lookup yc "GS10" = Some y10.
Hypothesis Hcodes : forall r, In r (assets ++ liabs) -> In (Code r) yield_codes.

Let net : Q := balance_sum assets - balance_sum liabs.

Lemma nii_uniform (s : Q) :
  exists n0 n1,
    Corp3.nii assets liabs yc = Ok n0
    /\ Corp3.nii assets liabs
         [("GS3M", y3m + s); ("GS1", y1 + s); ("GS5", y5 + s); ("GS10", y10 + s)]
       = Ok n1
    /\ n1 == n0 + s * net.
Proof.
  destruct (calc_uniform y3m y1 y5 y10 s yc assets "Income" Hyc)
    as (a0 & a1 & Ea0 & Ea1 & Ha).
  { intros r Hr. apply Hcodes, in_or_app. left. assumption. }
  destruct (calc_uniform y3m y1 y5 y10 s yc liabs "Expense" Hyc)
    as (l0 & l1 & El0 & El1 & Hl).
  { intros r Hr. apply Hcodes, in_or_app. right. assumption. }
  exists (column_sum a0 - column_sum l0), (column_sum a1 - column_sum l1).
  unfold Corp3.nii. rewrite Ea0, El0, Ea1, El1. simpl.
  repeat split. rewrite Ha, Hl. unfold net. ring.
Qed.

Lemma flat_curve (bp : Q) :
  dict_comp (fun c => y <- getitem yc c ;; Ok (y + bp)) yield_codes []
  = Ok [("GS3M", y3m + bp); ("GS1", y1 + bp); ("GS5", y5 + bp); ("GS10", y10 + bp)].
Proof.
  destruct Hyc as (H1 & H2 & H3 & H4).
  unfold yield_codes. simpl. unfold getitem. rewrite H1, H2, H3, H4. reflexivity.
Qed.

Lemma stressed_uniform (mc : string) (b s : Q) (sm : dict Q) (n0 : Q) :
  Corp3.shifts_map mc b = Ok sm ->
  (forall c, In c yield_codes -> lookup sm c = Some s) ->
  Corp3.nii assets liabs yc = Ok n0 ->
  exists n, Corp3.stressed mc b assets liabs yc = Ok n /\ n == n0 + s * net.
Proof.
  intros Esm Hsm En0. unfold Corp3.stressed. rewrite Esm.
  cbv beta iota delta [bind].
  rewrite (shifted_uniform y3m y1 y5 y10 s yc sm Hyc Hsm).
  destruct (nii_uniform s) as (m0 & n1 & E0 & E1 & Hn).
  rewrite E1. exists n1. split; [reflexivity|].
  rewrite En0 in E0. injection E0 as <-. exact Hn.
Qed.

End Corp3Uniform.

(** X10. The stressed NII of corp3.py, for a curve with the four codes and
    a ledger priced off them, is the NII on the current curve plus the
    shift in force times (total assets minus total liabilities).  The shift
    in force is the rate-shock shift under the regulatory choice 'Baseline',
    -0.01 under 'Adverse' and -0.025 under 'Severely Adverse', whatever the
    rate-shock shift is; any other regulatory choice raises [KeyError]
    with its name. *)
Theorem X10_corp3_stressed_nii_by_choice :
  forall (assets liabs : sheet) (yields_current : dict Q) (base_shift : Q),
    (forall c, In c yield_codes -> exists y, lookup yields_current c = Some y) ->
    (forall r, In r (assets ++ liabs) -> In (Code r) yield_codes) ->
    exists n0,
      Corp3.nii assets liabs yields_current = Ok n0
      /\ (exists n, Corp3.stressed "Baseline" base_shift assets liabs yields_current
                    = Ok n
                    /\ n == n0 + base_shift * (balance_sum assets - balance_sum liabs))
      /\ (exists n, Corp3.stressed "Adverse" base_shift assets liabs yields_current
                    = Ok n
                    /\ n == n0 + (-1 # 100) * (balance_sum assets - balance_sum liabs))
      /\ (exists n, Corp3.stressed "Severely Adverse" base_shift assets liabs
                      yields_current = Ok n
                    /\ n == n0 + (-25 # 1000) * (balance_sum assets - balance_sum liabs))
      /\ (forall mc, lookup Corp3.macro_shifts mc = None ->
                     Corp3.stressed mc base_shift assets liabs yields_current
                     = KeyError mc).
Proof.
  intros A L yc b H Hc.
  four_codes_as H y3m y1 y5 y10 H3m H1 H5 H10.
  assert (Hyc : lookup yc "GS3M" = Some y3m /\ lookup yc "GS1" = Some y1
                /\ lookup yc "GS5" = Some y5 /\ lookup yc "GS10" = Some y10)
    by (repeat split; assumption).
  destruct (nii_uniform yc y3m y1 y5 y10 A L Hyc Hc 0) as (n0 & _ & E0 & _ & _).
  exists n0. split; [exact E0|].
  split; [|split; [|split; [|]]].
  - apply (stressed_uniform yc y3m y1 y5 y10 A L Hyc Hc "Baseline" b b
             [("GS3M", b); ("GS1", b); ("GS5", b); ("GS10", b)] n0);
      [reflexivity | | exact E0].
    intros c Hin. simpl in Hin.
    destruct Hin as [<-|[<-|[<-|[<-|[]]]]]; reflexivity.
  - apply (stressed_uniform yc y3m y1 y5 y10 A L Hyc Hc "Adverse" b (-1 # 100)
             (map (fun c => (c, -1 # 100)) yield_codes) n0);
      [reflexivity | | exact E0].
    intros c Hin. simpl in Hin.
    destruct Hin as [<-|[<-|[<-|[<-|[]]]]]; reflexivity.
  - apply (stressed_uniform yc y3m y1 y5 y10 A L Hyc Hc "Severely Adverse" b
             (-25 # 1000) (map (fun c => (c, -25 # 1000)) yield_codes) n0);
      [reflexivity | | exact E0].
    intros c Hin. simpl in Hin.
    destruct Hin as [<-|[<-|[<-|[<-|[]]]]]; reflexivity.
  - intros mc Hmc. unfold Corp3.stressed, Corp3.shifts_map.
    destruct (String.eqb_spec mc "Baseline") as [->|Hne]; [discriminate Hmc|].
    unfold getitem. rewrite Hmc. reflexivity.
Qed.

Lemma default_ledger_codes :
  forall r, In r (assets_of default_inputs ++ liabs_of default_inputs) ->
            In (Code r) yield_codes.
Proof.
  intros r Hr. simpl in Hr.
  destruct Hr as [<-|[<-|[<-|[<-|[<-|[<-|[]]]]]]]; simpl; auto 6.
Qed.

Lemma X10_corp3_stressed_witness :
  exists n0 n,
    Corp3.nii (assets_of default_inputs) (liabs_of default_inputs) sample_yields
    = Ok n0
    /\ Corp3.stressed "Adverse" (2 # 100) (assets_of default_inputs)
         (liabs_of default_inputs) sample_yields = Ok n
    /\ n == n0 + (-1 # 100) * (balance_sum (assets_of default_inputs)
                               - balance_sum (liabs_of default_inputs)).
Proof.
  destruct (X10_corp3_stressed_nii_by_choice (assets_of default_inputs)
              (liabs_of default_inputs) sample_yields (2 # 100)
              sample_yields_four_codes default_ledger_codes)
    as (n0 & E0 & _ & (n & En & Hn) & _).
  exists n0, n. repeat split; assumption.
Defined.

(** X11. The two scenario tables of corp3.py (and corp_fin.py), for a curve
    with the four codes and a ledger priced off them.  The rate-shock table
    has one row per preset in the order of the preset table, each NII within
    0.005 of the current NII plus the preset shift times (total assets minus
    total liabilities); the regulatory table has the rows Baseline, Adverse,
    Severely Adverse, within 0.005 of the same expression at the shifts 0,
    -0.01 and -0.025. *)
Theorem X11_corp3_scenario_tables :
  forall (pre : dict Q) (assets liabs : sheet) (yields_current : dict Q),
    (forall c, In c yield_codes -> exists y, lookup yields_current c = Some y) ->
    (forall r, In r (assets ++ liabs) -> In (Code r) yield_codes) ->
    exists n0 rows v0 v1 v2,
      Corp3.nii assets liabs yields_current = Ok n0
      /\ Corp3.rs_for pre assets liabs yields_current = Ok rows
      /\ map fst rows = keys pre
      /\ Forall2 (fun nb row =>
                    - (1 # 200)
                    <= snd row - (n0 + snd nb * (balance_sum assets
                                                 - balance_sum liabs))
                    <= 1 # 200)
                 (items pre) rows
      /\ Corp3.ms assets liabs yields_current
         = Ok [("Baseline", v0); ("Adverse", v1); ("Severely Adverse", v2)]
      /\ - (1 # 200)
         <= v0 - (n0 + 0 * (balance_sum assets - balance_sum liabs)) <= 1 # 200
      /\ - (1 # 200)
         <= v1 - (n0 + (-1 # 100) * (balance_sum assets - balance_sum liabs))
         <= 1 # 200
      /\ - (1 # 200)
         <= v2 - (n0 + (-25 # 1000) * (balance_sum assets - balance_sum liabs))
         <= 1 # 200.
Proof.
  intros pre A L yc H Hc.
  four_codes_as H y3m y1 y5 y10 H3m H1 H5 H10.
  assert (Hyc : lookup yc "GS3M" = Some y3m /\ lookup yc "GS1" = Some y1
                /\ lookup yc "GS5" = Some y5 /\ lookup yc "GS10" = Some y10)
    by (repeat split; assumption).
  destruct (nii_uniform yc y3m y1 y5 y10 A L Hyc Hc 0) as (n0 & _ & E0 & _ & _).
  assert (Hrow : forall s, exists n1,
             Corp3.nii A L [("GS3M", y3m + s); ("GS1", y1 + s);
                            ("GS5", y5 + s); ("GS10", y10 + s)] = Ok n1
             /\ - (1 # 200)
                <= round2 n1 - (n0 + s * (balance_sum A - balance_sum L))
                <= 1 # 200).
  { intro s. destruct (nii_uniform yc y3m y1 y5 y10 A L Hyc Hc s)
      as (m0 & n1 & F0 & F1 & Hn).
    exists n1. split; [exact F1|]. apply round2_near.
    rewrite E0 in F0. injection F0 as <-. exact Hn. }
  exists n0.
  assert (Hrs : exists rows,
             Corp3.rs_for pre A L yc = Ok rows /\ map fst rows = keys pre
             /\ Forall2 (fun nb row =>
                           - (1 # 200)
                           <= snd row - (n0 + snd nb * (balance_sum A
                                                        - balance_sum L))
                           <= 1 # 200)
                        (items pre) rows).
  { unfold Corp3.rs_for, items.
    induction pre as [|[n v] pre IH].
    - exists []. repeat split. constructor.
    - destruct IH as (rows & E & Hk & HF).
      destruct (Hrow v) as (n1 & F1 & Hr).
      cbn [mapM fst snd]. rewrite E.
      rewrite (flat_curve yc y3m y1 y5 y10 Hyc v).
      cbv beta iota delta [bind]. rewrite F1.
      eexists. split; [reflexivity|].
      split; [simpl; rewrite Hk; reflexivity|].
      constructor; [exact Hr | exact HF]. }
  destruct Hrs as (rows & Ers & Hk & HF).
  destruct (Hrow 0) as (a & Fa & Ha).
  destruct (Hrow (-1 # 100)) as (b & Fb & Hb).
  destruct (Hrow (-25 # 1000)) as (c & Fc & Hcc).
  exists rows, (round2 a), (round2 b), (round2 c).
  split; [exact E0|]. split; [exact Ers|].
  split; [exact Hk|]. split; [exact HF|].
  split; [|split; [exact Ha | split; [exact Hb | exact Hcc]]].
  destruct Hyc as (Y1 & Y2 & Y3 & Y4).
  unfold Corp3.ms, Corp3.macro_shifts, items, yield_codes.
  cbn [mapM fst snd map dict_comp setitem String.eqb Ascii.eqb Bool.eqb].
  unfold getitem. cbn [lookup String.eqb Ascii.eqb Bool.eqb].
  rewrite Y1, Y2, Y3, Y4.
  cbv beta iota delta [bind]. cbn [setitem String.eqb Ascii.eqb Bool.eqb].
  rewrite Fa, Fb, Fc. reflexivity.
Qed.

Lemma X11_corp3_scenario_tables_witness :
  exists rows,
    Corp3.rs (assets_of default_inputs) (liabs_of default_inputs) sample_yields
    = Ok rows
    /\ map fst rows = keys Corp3.preset.
Proof.
  destruct (X11_corp3_scenario_tables Corp3.preset (assets_of default_inputs)
              (liabs_of default_inputs) sample_yields
              sample_yields_four_codes default_ledger_codes)
    as (n0 & rows & v0 & v1 & v2 & _ & E & Hk & _).
  exists rows. split; assumption.
Defined.

(* ===================================================================== *)
(** ** corp3.py and corp_fin.py: the waterfall rows *)
(* ===================================================================== *)

(** X12. When the waterfall of corp3.py and corp_fin.py fails, the
    [KeyError] names one of the four tenor codes, and that code has no
    entry in the current curve or in the shifted curve. *)
Theorem X12_waterfall_failure_names_absent_code :
  forall (i : inputs) (yields_current shifted : dict Q) (k : string),
    CorpFin.wf1 i yields_current shifted = KeyError k ->
    Corp3.wf i yields_current shifted = KeyError k
    /\ In k yield_codes
    /\ (lookup yields_current k = None \/ lookup shifted k = None).
Proof.
  intros i yc sh k. unfold CorpFin.wf1, Corp3.wf.
  intro E. split; [exact E|]. revert E.
  unfold Frame.waterfall, Frame.balances, items, yield_labels.
  cbn [Frame.delta_loop]. unfold getitem.
  cbn [lookup String.eqb Ascii.eqb Bool.eqb]. cbv beta iota delta [bind].
  destruct (lookup yc "GS3M") eqn:A1;
    [|intro E; injection E as <-; split; [simpl; auto | left; assumption]].
  destruct (lookup sh "GS3M") eqn:B1;
    [|intro E; injection E as <-; split; [simpl; auto | right; assumption]].
  destruct (lookup yc "GS1") eqn:A2;
    [|intro E; injection E as <-; split; [simpl; auto | left; assumption]].
  destruct (lookup sh "GS1") eqn:B2;
    [|intro E; injection E as <-; split; [simpl; auto | right; assumption]].
  destruct (lookup yc "GS5") eqn:A3;
    [|intro E; injection E as <-; split; [simpl; auto | left; assumption]].
  destruct (lookup sh "GS5") eqn:B3;
    [|intro E; injection E as <-; split; [simpl; auto | right; assumption]].
  destruct (lookup yc "GS10") eqn:A4;
    [|intro E; injection E as <-; split; [simpl; auto 6 | left; assumption]].
  destruct (lookup sh "GS10") eqn:B4;
    [|intro E; injection E as <-; split; [simpl; auto 6 | right; assumption]].
  discriminate.
Qed.

Lemma X12_waterfall_failure_witness :
  In "GS5" yield_codes
  /\ (lookup sample_yields "GS5" = None
      \/ lookup [("GS3M", 4 # 100); ("GS1", 2 # 100)] "GS5" = None).
Proof.
  apply (X12_waterfall_failure_names_absent_code default_inputs sample_yields
           [("GS3M", 4 # 100); ("GS1", 2 # 100)] "GS5").
  reflexivity.
Defined.

(** X13. The rows of the waterfall of corp3.py and corp_fin.py, for two
    curves with the four codes: Baseline, 3M, 1Y, 5Y, 10Y, Total in this
    order; each displayed tenor delta is within 0.005 of cash, deposits,
    loans or bonds times the rate change at its code, and the displayed
    Total delta within 0.005 of the sum of these four products; the Total
    bar is stacked on the tenor bars: it starts at the sum of the four
    displayed deltas and ends at that sum plus its own displayed delta. *)
Theorem X13_waterfall_rows_and_stacked_total :
  forall (i : inputs) (yields_current shifted : dict Q),
    (forall c, In c yield_codes -> exists y, lookup yields_current c = Some y) ->
    (forall c, In c yield_codes -> exists y, lookup shifted c = Some y) ->
    exists b0 b1 b2 b3 b4 t,
      CorpFin.wf1 i yields_current shifted = Ok [b0; b1; b2; b3; b4; t]
      /\ Corp3.wf i yields_current shifted = Ok [b0; b1; b2; b3; b4; t]
      /\ map Maturity [b0; b1; b2; b3; b4; t]
         = ["Baseline"; "3M"; "1Y"; "5Y"; "10Y"; "Total"]
      /\ - (1 # 200)
         <= dNII b1 - cash i * (get shifted "GS3M" 0 - get yields_current "GS3M" 0)
         <= 1 # 200
      /\ - (1 # 200)
         <= dNII b2 - deposits i * (get shifted "GS1" 0 - get yields_current "GS1" 0)
         <= 1 # 200
      /\ - (1 # 200)
         <= dNII b3 - loans i * (get shifted "GS5" 0 - get yields_current "GS5" 0)
         <= 1 # 200
      /\ - (1 # 200)
         <= dNII b4 - bonds i * (get shifted "GS10" 0 - get yields_current "GS10" 0)
         <= 1 # 200
      /\ - (1 # 200)
         <= dNII t
            - (cash i * (get shifted "GS3M" 0 - get yields_current "GS3M" 0)
               + deposits i * (get shifted "GS1" 0 - get yields_current "GS1" 0)
               + loans i * (get shifted "GS5" 0 - get yields_current "GS5" 0)
               + bonds i * (get shifted "GS10" 0 - get yields_current "GS10" 0))
         <= 1 # 200
      /\ Start t == dNII b1 + dNII b2 + dNII b3 + dNII b4
      /\ End_ t == dNII b1 + dNII b2 + dNII b3 + dNII b4 + dNII t.
Proof.
  intros i yc sh Hy Hs.
  four_codes_as Hy y3m y1 y5 y10 H3m H1 H5 H10.
  four_codes_as Hs s3m s1 s5 s10 G3m G1 G5 G10.
  unfold CorpFin.wf1, Corp3.wf, Frame.waterfall, Frame.balances, items,
    yield_labels.
  cbn [Frame.delta_loop]. unfold getitem, get.
  cbn [lookup String.eqb Ascii.eqb Bool.eqb].
  rewrite H3m, H1, H5, H10, G3m, G1, G5, G10.
  cbv beta iota delta [bind].
  cbn -[Qplus Qminus Qmult round2].
  do 6 eexists. split; [reflexivity|]. split; [reflexivity|].
  split; [reflexivity|].
  cbn -[Qplus Qminus Qmult Qle Qopp round2].
  split; [apply round2_near; ring|].
  split; [apply round2_near; ring|].
  split; [apply round2_near; ring|].
  split; [apply round2_near; ring|].
  split; [apply round2_near; ring|].
  split; ring.
Qed.

Lemma X13_waterfall_rows_witness :
  exists b0 b1 b2 b3 b4 t,
    CorpFin.wf1 default_inputs sample_yields
      (map (fun kv => (fst kv, snd kv + custom_25bp)) sample_yields)
    = Ok [b0; b1; b2; b3; b4; t]
    /\ End_ t == dNII b1 + dNII b2 + dNII b3 + dNII b4 + dNII t.
Proof.
  destruct (X13_waterfall_rows_and_stacked_total default_inputs sample_yields
              (map (fun kv => (fst kv, snd kv + custom_25bp)) sample_yields)
              sample_yields_four_codes)
    as (b0 & b1 & b2 & b3 & b4 & t & E & _ & _ & _ & _ & _ & _ & _ & _ & Ht).
  - intros c Hc. simpl in Hc.
    destruct Hc as [<-|[<-|[<-|[<-|[]]]]]; eexists; reflexivity.
  - exists b0, b1, b2, b3, b4, t. split; assumption.
Defined.

(** X14. With the regulatory choice 'Baseline' and a rate-shock shift of 0,
    for a curve with the four codes: the shift map and the shifted curve
    are built, and every row of the waterfall of corp3.py and corp_fin.py
    has Start, End and ΔNII equal to 0. *)
Theorem X14_zero_shift_waterfall_is_flat :
  forall (i : inputs) (yields_current : dict Q),
    (forall c, In c yield_codes -> exists y, lookup yields_current c = Some y) ->
    exists sm shifted rows,
      Corp3.shifts_map "Baseline" 0 = Ok sm
      /\ Corp3.shifted yields_current sm = Ok shifted
      /\ CorpFin.shifted yields_current sm = Ok shifted
      /\ Corp3.wf i yields_current shifted = Ok rows
      /\ CorpFin.wf1 i yields_current shifted = Ok rows
      /\ Forall (fun r => Start r == 0 /\ End_ r == 0 /\ dNII r == 0) rows.
Proof.
  intros i yc Hy.
  four_codes_as Hy y3m y1 y5 y10 H3m H1 H5 H10.
  assert (Hyc : lookup yc "GS3M" = Some y3m /\ lookup yc "GS1" = Some y1
                /\ lookup yc "GS5" = Some y5 /\ lookup yc "GS10" = Some y10)
    by (repeat split; assumption).
  exists [("GS3M", 0); ("GS1", 0); ("GS5", 0); ("GS10", 0)].
  assert (Hsm : forall c, In c yield_codes ->
                  lookup [("GS3M", 0); ("GS1", 0); ("GS5", 0); ("GS10", 0)] c
                  = Some 0).
  { intros c Hin. simpl in Hin.
    destruct Hin as [<-|[<-|[<-|[<-|[]]]]]; reflexivity. }
  pose proof (shifted_uniform y3m y1 y5 y10 0 yc _ Hyc Hsm) as Esh.
  eexists. eexists.
  split; [reflexivity|]. split; [exact Esh|]. split; [exact Esh|].
  unfold CorpFin.wf1, Corp3.wf, Frame.waterfall, Frame.balances, items,
    yield_labels.
  cbn [Frame.delta_loop]. unfold getitem.
  cbn [lookup String.eqb Ascii.eqb Bool.eqb].
  rewrite H3m, H1, H5, H10.
  cbv beta iota delta [bind].
  cbn -[Qplus Qminus Qmult round2].
  split; [reflexivity|]. split; [reflexivity|].
  assert (Z : forall b y : Q, round2 (b * (y + 0) - b * y) == 0)
    by (intros b y; apply round2_zero; ring).
  assert (ZT : round2 (0 + cash i * (y3m + 0) + deposits i * (y1 + 0)
                       + loans i * (y5 + 0) + bonds i * (y10 + 0)
                       - (0 + cash i * y3m + deposits i * y1
                          + loans i * y5 + bonds i * y10)) == 0)
    by (apply round2_zero; ring).
  repeat constructor; cbn -[Qplus Qminus Qmult round2];
    rewrite ?Z, ?ZT; try reflexivity; ring.
Qed.

Lemma X14_zero_shift_witness :
  exists sm shifted rows,
    Corp3.shifts_map "Baseline" 0 = Ok sm
    /\ Corp3.shifted sample_yields sm = Ok shifted
    /\ CorpFin.shifted sample_yields sm = Ok shifted
    /\ Corp3.wf default_inputs sample_yields shifted = Ok rows
    /\ CorpFin.wf1 default_inputs sample_yields shifted = Ok rows
    /\ Forall (fun r => Start r == 0 /\ End_ r == 0 /\ dNII r == 0) rows.
Proof.
  apply (X14_zero_shift_waterfall_is_flat default_inputs sample_yields
           sample_yields_four_codes).
Defined.

(* ===================================================================== *)
(** ** corp_fin.py: the gap and the DV01 table, for every input *)
(* ===================================================================== *)

(** X15. For every ledger, bucket map and duration map, the gap of a
    bucket of the duration map is the asset balances minus the liability
    balances assigned to it when both sides have a position in the bucket,
    and 0 when either side has none. *)
Theorem X15_gap_of_a_bucket :
  forall (tm : dict string) (dm : dict Q) (assets liabs : sheet) (b : string),
    In b (keys dm) ->
    lookup (CorpFin.gap_for tm dm assets liabs) b
    = Some (if present tm assets b && present tm liabs b
            then Claimed.bucket_balance tm assets b
                 - Claimed.bucket_balance tm liabs b
            else 0).
Proof.
  intros tm dm A L b Hb. apply (gap_for_value tm dm A L b Hb).
Qed.

Lemma X15_gap_witness :
  lookup (CorpFin.gap (assets_of default_inputs) (liabs_of default_inputs)) "5Y+"
  = Some (if present CorpFin.tenor_map (assets_of default_inputs) "5Y+"
             && present CorpFin.tenor_map (liabs_of default_inputs) "5Y+"
          then Claimed.bucket_balance CorpFin.tenor_map (assets_of default_inputs) "5Y+"
               - Claimed.bucket_balance CorpFin.tenor_map (liabs_of default_inputs) "5Y+"
          else 0).
Proof.
  apply (X15_gap_of_a_bucket CorpFin.tenor_map CorpFin.dur_map
           (assets_of default_inputs) (liabs_of default_inputs) "5Y+").
  simpl. auto.
Defined.

Lemma present_scale (tm : dict string) (k : Q) (sh : sheet) (b : string) :
  present tm (scale k sh) b = present tm sh b.
Proof.
  unfold present, CorpFin.with_bucket, scale.
  induction sh as [|r sh IH]; simpl; [reflexivity|].
  rewrite IH. reflexivity.
Qed.

Lemma bucket_balance_scale (tm : dict string) (k : Q) (sh : sheet) (b : string) :
  Claimed.bucket_balance tm (scale k sh) b == k * Claimed.bucket_balance tm sh b.
Proof.
  unfold Claimed.bucket_balance, scale.
  induction sh as [|r sh IH]; simpl.
  - unfold qsum. simpl. ring.
  - destruct (lookup tm (Type_ r)) as [b'|]; [destruct (String.eqb b' b)|];
      simpl; rewrite ?qsum_cons, IH; try ring; reflexivity.
Qed.

(** X16. The gap of a bucket changes sign when assets and liabilities are
    exchanged, and is multiplied by [k] when every balance of the ledger is
    multiplied by [k]. *)
Theorem X16_gap_antisymmetric_and_linear :
  forall (tm : dict string) (dm : dict Q) (assets liabs : sheet) (b : string)
         (k : Q),
    In b (keys dm) ->
    exists g g' gk,
      lookup (CorpFin.gap_for tm dm assets liabs) b = Some g
      /\ lookup (CorpFin.gap_for tm dm liabs assets) b = Some g'
      /\ lookup (CorpFin.gap_for tm dm (scale k assets) (scale k liabs)) b = Some gk
      /\ g' == - g
      /\ gk == k * g.
Proof.
  intros tm dm A L b k Hb.
  do 3 eexists.
  split; [apply gap_for_value; assumption|].
  split; [apply gap_for_value; assumption|].
  split; [apply gap_for_value; assumption|].
  rewrite !present_scale.
  unfold Claimed.gap.
  destruct (present tm A b), (present tm L b); simpl;
    rewrite ?bucket_balance_scale; split; ring.
Qed.

Lemma X16_gap_witness :
  exists g g' gk,
    lookup (CorpFin.gap (assets_of default_inputs) (liabs_of default_inputs)) "5Y+"
    = Some g
    /\ lookup (CorpFin.gap (liabs_of default_inputs) (assets_of default_inputs)) "5Y+"
       = Some g'
    /\ lookup (CorpFin.gap (scale 2 (assets_of default_inputs))
                           (scale 2 (liabs_of default_inputs))) "5Y+" = Some gk
    /\ g' == - g
    /\ gk == 2 * g.
Proof.
  apply (X16_gap_antisymmetric_and_linear CorpFin.tenor_map CorpFin.dur_map
           (assets_of default_inputs) (liabs_of default_inputs) "5Y+" 2).
  simpl. auto.
Defined.

Lemma dv01_scenario_shape (dm : dict Q) (name : string) (bp : Q)
    (df_gap : list (string * Q)) (rs : list CorpFin.dv01_row) :
  Forall2 (fun p r =>
             CorpFin.Scenario r = name /\ CorpFin.Bucket r = fst p
             /\ exists D, lookup dm (fst p) = Some D
                          /\ CorpFin.DV01 r = snd p * D * (bp * 100))
          df_gap rs ->
  map (fun r => (CorpFin.Scenario r, CorpFin.Bucket r)) rs
  = map (fun p => (name, fst p)) df_gap.
Proof.
  induction 1 as [|p r l l' (Hs & Hb & _) _ IHF]; simpl.
  - reflexivity.
  - rewrite Hs, Hb, IHF. reflexivity.
Qed.

Lemma dv01_rows_for_shape (dm : dict Q) (scen : list (string * Q))
    (df_gap : list (string * Q)) (rows : list CorpFin.dv01_row) :
  (forall p, In p df_gap -> In (fst p) (keys dm)) ->
  CorpFin.dv01_rows_for dm scen df_gap = Ok rows ->
  map (fun r => (CorpFin.Scenario r, CorpFin.Bucket r)) rows
  = flat_map (fun sc => map (fun p => (fst sc, fst p)) df_gap) scen.
Proof.
  intro Hk. unfold CorpFin.dv01_rows_for. revert rows.
  induction scen as [|[name bp] scen IH]; intros rows E.
  - simpl in E. injection E as <-. reflexivity.
  - destruct (dv01_scenario_rows dm name bp df_gap Hk) as (rs & Ers & HF).
    cbn [mapM fst snd] in E. rewrite Ers in E.
    cbv beta iota delta [bind] in E.
    destruct (mapM (fun sc => CorpFin.dv01_scenario dm (fst sc) (snd sc) df_gap) scen)
      as [per|k] eqn:Eper; [|discriminate].
    injection E as <-. simpl List.concat. rewrite map_app.
    simpl flat_map. f_equal.
    + apply (dv01_scenario_shape dm name bp). exact HF.
    + apply IH. reflexivity.
Qed.

(** The rows of a scenario whose every listed shift is 0: the table is
    computed, has a row of that scenario for every bucket of the duration
    map, and all rows of that scenario are 0. *)
Lemma zero_shift_scenario_rows (tm : dict string) (dm : dict Q)
    (scen : list (string * Q)) (assets liabs : sheet) (name : string) :
  (exists bp, In (name, bp) scen) ->
  (forall bp, In (name, bp) scen -> bp == 0) ->
  exists rows,
    CorpFin.dv01_rows_for dm scen (CorpFin.gap_for tm dm assets liabs) = Ok rows
    /\ (forall b, In b (keys dm) ->
          exists r, In r rows /\ CorpFin.Scenario r = name
                    /\ CorpFin.Bucket r = b /\ CorpFin.DV01 r == 0)
    /\ (forall r, In r rows -> CorpFin.Scenario r = name ->
          In (CorpFin.Bucket r) (keys dm) /\ CorpFin.DV01 r == 0).
Proof.
  intros [bp0 Hin] Hzero.
  destruct (dv01_rows_for_rows dm scen (CorpFin.gap_for tm dm assets liabs)
              (gap_for_keys tm dm assets liabs)) as (rows & E & Hrows).
  assert (Hz : forall r, In r rows -> CorpFin.Scenario r = name ->
                 In (CorpFin.Bucket r) (keys dm) /\ CorpFin.DV01 r == 0).
  { intros r Hr Hn.
    destruct (Hrows r Hr) as (bp & g & D & H1 & H2 & _ & H4).
    split.
    - apply (gap_for_keys tm dm assets liabs (CorpFin.Bucket r, g)). exact H2.
    - rewrite Hn in H1. rewrite H4, (Hzero bp H1). ring. }
  exists rows. split; [exact E|]. split; [|exact Hz].
  intros b Hb.
  pose proof (dv01_rows_for_shape dm scen _ rows
                (gap_for_keys tm dm assets liabs) E) as Hshape.
  assert (Hpair : In (name, b)
                    (map (fun r => (CorpFin.Scenario r, CorpFin.Bucket r)) rows)).
  { rewrite Hshape. apply in_flat_map. exists (name, bp0).
    split; [exact Hin|].
    rewrite <- (gap_for_buckets tm dm assets liabs) in Hb.
    apply in_map_iff in Hb. destruct Hb as (p & Hp & Hpin).
    apply in_map_iff. exists p. split; [simpl; rewrite Hp; reflexivity | exact Hpin]. }
  apply in_map_iff in Hpair. destruct Hpair as (r & Heq & Hr).
  injection Heq as Hs Hbk.
  exists r. split; [exact Hr|]. split; [exact Hs|]. split; [exact Hbk|].
  apply (Hz r Hr Hs).
Qed.

(** C10. For every ledger, bucket map and duration map, the DV01 table is
    computed; it has a Baseline row for every bucket of the duration map,
    and every Baseline row has DV01 equal to 0.  The same holds, for any
    scenario list, of a listed scenario whose shift is 0. *)
Theorem C10_zero_shift_gives_zero_dv01 :
  forall (tm : dict string) (dm : dict Q) (assets liabs : sheet),
    (exists rows,
        CorpFin.dv01_rows_for dm CorpFin.scenarios
          (CorpFin.gap_for tm dm assets liabs) = Ok rows
        /\ (forall b, In b (keys dm) ->
              exists r, In r rows /\ CorpFin.Scenario r = "Baseline"
                        /\ CorpFin.Bucket r = b /\ CorpFin.DV01 r == 0)
        /\ (forall r, In r rows -> CorpFin.Scenario r = "Baseline" ->
              In (CorpFin.Bucket r) (keys dm) /\ CorpFin.DV01 r == 0))
    /\ (forall (scen : list (string * Q)) (name : string),
          (exists bp, In (name, bp) scen) ->
          (forall bp, In (name, bp) scen -> bp == 0) ->
          exists rows,
            CorpFin.dv01_rows_for dm scen (CorpFin.gap_for tm dm assets liabs)
            = Ok rows
            /\ (forall b, In b (keys dm) ->
                  exists r, In r rows /\ CorpFin.Scenario r = name
                            /\ CorpFin.Bucket r = b /\ CorpFin.DV01 r == 0)
            /\ (forall r, In r rows -> CorpFin.Scenario r = name ->
                  In (CorpFin.Bucket r) (keys dm) /\ CorpFin.DV01 r == 0)).
Proof.
  intros tm dm assets liabs. split.
  - apply (zero_shift_scenario_rows tm dm CorpFin.scenarios assets liabs "Baseline").
    + exists 0. left. reflexivity.
    + intros bp Hbp. unfold CorpFin.scenarios in Hbp. simpl in Hbp.
      destruct Hbp as [Hbp|[Hbp|[Hbp|[]]]]; try discriminate.
      injection Hbp as <-. reflexivity.
  - intros scen name. apply zero_shift_scenario_rows.
Qed.

Lemma C10_zero_shift_witness :
  exists rows r,
    CorpFin.dv01_rows (assets_of default_inputs) (liabs_of default_inputs)
    = Ok rows
    /\ In r rows /\ CorpFin.Scenario r = "Baseline"
    /\ CorpFin.Bucket r = "5Y+" /\ CorpFin.DV01 r == 0.
Proof.
  destruct (C10_zero_shift_gives_zero_dv01 CorpFin.tenor_map CorpFin.dur_map
              (assets_of default_inputs) (liabs_of default_inputs))
    as [(rows & E & Hb & _) _].
  destruct (Hb "5Y+") as (r & Hr & Hs & Hbk & Hd).
  - simpl. auto.
  - exists rows, r. repeat split; assumption.
Defined.

(** X17. For every ledger, bucket map, duration map and scenario list the
    DV01 table is computed: it has one row per scenario and bucket, the
    scenarios in the order of the list and, within a scenario, the buckets
    in the order of the duration map; the DV01 of a row is the gap of its
    bucket times the duration of the bucket times 100 times a shift listed
    for its scenario. *)
Theorem X17_dv01_table :
  forall (tm : dict string) (dm : dict Q) (scen : list (string * Q))
         (assets liabs : sheet),
    exists rows,
      CorpFin.dv01_rows_for dm scen (CorpFin.gap_for tm dm assets liabs) = Ok rows
      /\ map (fun r => (CorpFin.Scenario r, CorpFin.Bucket r)) rows
         = flat_map (fun sc => map (fun b => (fst sc, b)) (keys dm)) scen
      /\ forall r, In r rows ->
           exists bp g D,
             In (CorpFin.Scenario r, bp) scen
             /\ lookup (CorpFin.gap_for tm dm assets liabs) (CorpFin.Bucket r) = Some g
             /\ lookup dm (CorpFin.Bucket r) = Some D
             /\ CorpFin.DV01 r = g * D * (bp * 100).
Proof.
  intros tm dm scen A L.
  destruct (dv01_rows_for_rows dm scen (CorpFin.gap_for tm dm A L)
              (gap_for_keys tm dm A L)) as (rows & E & Hrows).
  exists rows. split; [exact E|]. split.
  - rewrite (dv01_rows_for_shape dm scen _ rows (gap_for_keys tm dm A L) E).
    rewrite <- (gap_for_buckets tm dm A L).
    clear E Hrows.
    induction scen as [|sc scen IH]; simpl; [reflexivity|].
    rewrite map_map. f_equal. exact IH.
  - intros r Hr. destruct (Hrows r Hr) as (bp & g & D & H1 & H2 & H3 & H4).
    exists bp, g, D. split; [exact H1|]. split; [|split; assumption].
    assert (Hb : In (CorpFin.Bucket r) (keys dm)).
    { apply (gap_for_keys tm dm A L (CorpFin.Bucket r, g)). exact H2. }
    rewrite gap_for_value by assumption.
    unfold CorpFin.gap_for, Pandas.fillna, Pandas.reindex in H2.
    rewrite map_map in H2. apply in_map_iff in H2.
    destruct H2 as (b' & Heq & _). simpl in Heq.
    injection Heq as Hb' Hg. subst b'.
    rewrite <- Hg, loc_align_op, !loc_groupby_sum.
    destruct (present tm A (CorpFin.Bucket r)), (present tm L (CorpFin.Bucket r));
      reflexivity.
Qed.

(* ===================================================================== *)
(** ** corp_fin.py: the P&L explain for every business unit *)
(* ===================================================================== *)

Lemma bu_filter_unknown (bu_choice : string) (b0 b1 : inputs) (df : CorpFin.pframe) :
  bu_choice <> "All" -> bu_choice <> "Corporate" -> bu_choice <> "Retail" ->
  CorpFin.make_sheet b0 b1 = Ok df ->
  CorpFin.bu_filter bu_choice df = [].
Proof.
  intros HA HC HR E. simpl in E. injection E as <-.
  unfold CorpFin.bu_filter.
  apply String.eqb_neq in HA. rewrite HA.
  assert (HC' : String.eqb "Corporate" bu_choice = false)
    by (apply String.eqb_neq; congruence).
  assert (HR' : String.eqb "Retail" bu_choice = false)
    by (apply String.eqb_neq; congruence).
  cbn [negb filter snd CorpFin.BU]. rewrite HC', HR'. reflexivity.
Qed.

Section ExplainUnits.

Variables (s e : inputs) (fy ly : dict Q).
Variables (f3 f1 f5 f10 l3 l1 l5 l10 : Q).

Hypothesis Hfy : lookup fy "3M" = Some f3 /\ lookup fy "1Y" = Some f1
                 /\ lookup fy "5Y" = Some f5 /\ lookup fy "10Y" = Some f10.
Hypothesis Hly : lookup ly "3M" = Some l3 /\ lookup ly "1Y" = Some l1
                 /\ lookup ly "5Y" = Some l5 /\ lookup ly "10Y" = Some l10.

(** A unit other than All, Corporate and Retail leaves no row: the five
    entries are the number 0 and the identity holds. *)
Lemma pl_explain_unknown_unit (bu_choice : string) :
  bu_choice <> "All" -> bu_choice <> "Corporate" -> bu_choice <> "Retail" ->
  exists ex q0 qr q1,
    CorpFin.pl_explain s e bu_choice fy ly = Ok ex
    /\ CorpFin.starting_nii ex = Pandas.Num q0 /\ q0 == 0
    /\ CorpFin.rate_variance ex = Pandas.Num qr /\ qr == 0
    /\ CorpFin.ending_nii ex = Pandas.Num q1 /\ q1 == 0
    /\ CorpFin.volume_variance ex == 0
    /\ CorpFin.mix_variance ex == 0
    /\ CorpFin.identity_holds ex = true.
Proof.
  intros HA HC HR.
  destruct Hfy as (F3 & F1 & F5 & F10); destruct Hly as (L3 & L1 & L5 & L10).
  unfold CorpFin.pl_explain.
  destruct (CorpFin.make_sheet s s) as [df0|k] eqn:Es; [|simpl in Es; discriminate Es].
  destruct (CorpFin.make_sheet e e) as [df1|k] eqn:Ee; [|simpl in Ee; discriminate Ee].
  cbv beta iota zeta delta [bind].
  rewrite !(bu_filter_unknown bu_choice s s df0 HA HC HR Es).
  rewrite !(bu_filter_unknown bu_choice e e df1 HA HC HR Ee).
  unfold CorpFin.rate_map, yield_codes.
  simpl dict_comp. unfold getitem. simpl lookup at 1.
  rewrite F3, F1, F5, F10, L3, L1, L5, L10.
  cbn -[Qplus Qminus Qmult Qdiv].
  do 4 eexists. split; [reflexivity|]. simpl.
  repeat split; reflexivity.
Qed.

(** Whatever the business unit, the five entries are computed. *)
Lemma pl_explain_runs (bu_choice : string) :
  exists ex, CorpFin.pl_explain s e bu_choice fy ly = Ok ex.
Proof.
  destruct (String.eqb_spec bu_choice "All") as [->|HA].
  { destruct (pl_explain_all_units s e fy ly f3 f1 f5 f10 l3 l1 l5 l10 Hfy Hly)
      as (ex & E & _). exists ex. exact E. }
  destruct (String.eqb_spec bu_choice "Corporate") as [->|HC].
  { destruct (pl_explain_corporate s e fy ly f3 f1 f5 f10 l3 l1 l5 l10 Hfy Hly)
      as (ex & E & _). exists ex. exact E. }
  destruct (String.eqb_spec bu_choice "Retail") as [->|HR].
  { destruct (pl_explain_retail s e fy ly f3 f1 f5 f10 l3 l1 l5 l10 Hfy Hly)
      as (ex & E & _). exists ex. exact E. }
  destruct (pl_explain_unknown_unit bu_choice HA HC HR) as (ex & _ & _ & _ & E & _).
  exists ex. exact E.
Qed.

End ExplainUnits.

(** X18. With the four labels in the first and in the last historical row
    the P&L explain of corp_fin.py is computed whatever the business unit;
    a unit other than All, Corporate and Retail leaves no position, all five
    entries are the number 0 and the identity holds. *)
Theorem X18_pl_explain_every_unit :
  forall (s e : inputs) (bu_choice : string) (fy ly : dict Q)
         (f3 f1 f5 f10 l3 l1 l5 l10 : Q),
    lookup fy "3M" = Some f3 /\ lookup fy "1Y" = Some f1
    /\ lookup fy "5Y" = Some f5 /\ lookup fy "10Y" = Some f10 ->
    lookup ly "3M" = Some l3 /\ lookup ly "1Y" = Some l1
    /\ lookup ly "5Y" = Some l5 /\ lookup ly "10Y" = Some l10 ->
    (exists ex, CorpFin.pl_explain s e bu_choice fy ly = Ok ex)
    /\ (bu_choice <> "All" -> bu_choice <> "Corporate" -> bu_choice <> "Retail" ->
        exists ex q0 qr q1,
          CorpFin.pl_explain s e bu_choice fy ly = Ok ex
          /\ CorpFin.starting_nii ex = Pandas.Num q0 /\ q0 == 0
          /\ CorpFin.rate_variance ex = Pandas.Num qr /\ qr == 0
          /\ CorpFin.ending_nii ex = Pandas.Num q1 /\ q1 == 0
          /\ CorpFin.volume_variance ex == 0
          /\ CorpFin.mix_variance ex == 0
          /\ CorpFin.identity_holds ex = true).
Proof.
  intros s e bu fy ly f3 f1 f5 f10 l3 l1 l5 l10 Hfy Hly. split.
  - apply (pl_explain_runs s e fy ly f3 f1 f5 f10 l3 l1 l5 l10 Hfy Hly).
  - apply (pl_explain_unknown_unit s e fy ly f3 f1 f5 f10 l3 l1 l5 l10 Hfy Hly).
Qed.

Lemma sample_fy_labels :
  lookup sample_fy "3M" = Some (5 # 100) /\ lookup sample_fy "1Y" = Some (3 # 100)
  /\ lookup sample_fy "5Y" = Some (4 # 100) /\ lookup sample_fy "10Y" = Some (45 # 1000).
Proof. repeat split. Qed.

Lemma sample_ly_labels :
  lookup sample_ly "3M" = Some (4 # 100) /\ lookup sample_ly "1Y" = Some (35 # 1000)
  /\ lookup sample_ly "5Y" = Some (42 # 1000) /\ lookup sample_ly "10Y" = Some (5 # 100).
Proof. repeat split. Qed.

Lemma X18_pl_explain_witness :
  exists ex, CorpFin.pl_explain default_start default_end "Treasury"
               sample_fy sample_ly = Ok ex.
Proof.
  apply (X18_pl_explain_every_unit default_start default_end "Treasury"
           sample_fy sample_ly _ _ _ _ _ _ _ _ sample_fy_labels sample_ly_labels).
Defined.

(** X19. With the business unit Retail only Deposits is left: the starting
    NII, the rate variance and the ending NII are Series with the single
    row 3, holding minus the start balance times the first rate, minus the
    start balance times the rate change, and minus the end balance times
    the last rate; the volume and mix variances are the numbers minus the
    balance change times the first rate and times the rate change; the
    identity holds. *)
Theorem X19_pl_explain_retail :
  forall (s e : inputs) (fy ly : dict Q) (f3 f1 f5 f10 l3 l1 l5 l10 : Q),
    lookup fy "3M" = Some f3 /\ lookup fy "1Y" = Some f1
    /\ lookup fy "5Y" = Some f5 /\ lookup fy "10Y" = Some f10 ->
    lookup ly "3M" = Some l3 /\ lookup ly "1Y" = Some l1
    /\ lookup ly "5Y" = Some l5 /\ lookup ly "10Y" = Some l10 ->
    exists ex v0 vr v1,
      CorpFin.pl_explain s e "Retail" fy ly = Ok ex
      /\ CorpFin.starting_nii ex = Pandas.Ser [(3%nat, Some v0)]
      /\ v0 == - (deposits s * f1)
      /\ CorpFin.rate_variance ex = Pandas.Ser [(3%nat, Some vr)]
      /\ vr == - (deposits s * (l1 - f1))
      /\ CorpFin.ending_nii ex = Pandas.Ser [(3%nat, Some v1)]
      /\ v1 == - (deposits e * l1)
      /\ CorpFin.volume_variance ex == - ((deposits e - deposits s) * f1)
      /\ CorpFin.mix_variance ex == - ((deposits e - deposits s) * (l1 - f1))
      /\ CorpFin.identity_holds ex = true.
Proof.
  intros s e fy ly f3 f1 f5 f10 l3 l1 l5 l10 Hfy Hly.
  destruct (pl_explain_retail s e fy ly f3 f1 f5 f10 l3 l1 l5 l10 Hfy Hly)
    as (ex0 & E0 & Hid).
  destruct Hfy as (F3 & F1 & F5 & F10); destruct Hly as (L3 & L1 & L5 & L10).
  revert E0.
  unfold CorpFin.pl_explain, CorpFin.rate_map, yield_codes.
  simpl CorpFin.make_sheet. simpl dict_comp. unfold getitem. simpl lookup at 1.
  rewrite F3, F1, F5, F10, L3, L1, L5, L10.
  cbn -[Qplus Qminus Qmult Qdiv].
  intro E0. injection E0 as <-.
  do 4 eexists. split; [reflexivity|].
  cbn -[Qplus Qminus Qmult Qdiv].
  split; [reflexivity|]. split; [ring|].
  split; [reflexivity|]. split; [ring|].
  split; [reflexivity|]. split; [ring|].
  split; [unfold qsum; simpl fold_left; ring|].
  split; [unfold qsum; simpl fold_left; ring|].
  exact Hid.
Qed.

Lemma X19_pl_explain_retail_witness :
  exists ex, CorpFin.pl_explain default_start default_end "Retail"
               sample_fy sample_ly = Ok ex
             /\ CorpFin.identity_holds ex = true.
Proof.
  destruct (X19_pl_explain_retail default_start default_end sample_fy sample_ly
              _ _ _ _ _ _ _ _ sample_fy_labels sample_ly_labels)
    as (ex & _ & _ & _ & E & _ & _ & _ & _ & _ & _ & _ & _ & H).
  exists ex. split; assumption.
Defined.

(** X20. With every business unit, the volume variance is the sum over the
    three assets of balance change times first rate minus the same sum over
    the three liabilities, and the mix variance is the like sum of balance
    change times rate change; both are 0 when the end balances equal the
    start balances. *)
Theorem X20_volume_and_mix_variance :
  forall (s e : inputs) (fy ly : dict Q) (f3 f1 f5 f10 l3 l1 l5 l10 : Q),
    lookup fy "3M" = Some f3 /\ lookup fy "1Y" = Some f1
    /\ lookup fy "5Y" = Some f5 /\ lookup fy "10Y" = Some f10 ->
    lookup ly "3M" = Some l3 /\ lookup ly "1Y" = Some l1
    /\ lookup ly "5Y" = Some l5 /\ lookup ly "10Y" = Some l10 ->
    (exists ex,
        CorpFin.pl_explain s e "All" fy ly = Ok ex
        /\ CorpFin.volume_variance ex
           == (loans e - loans s) * f5 + (bonds e - bonds s) * f10
              + (cash e - cash s) * f3
              - ((deposits e - deposits s) * f1 + (borrow e - borrow s) * f3
                 + (corp e - corp s) * f3)
        /\ CorpFin.mix_variance ex
           == (loans e - loans s) * (l5 - f5) + (bonds e - bonds s) * (l10 - f10)
              + (cash e - cash s) * (l3 - f3)
              - ((deposits e - deposits s) * (l1 - f1)
                 + (borrow e - borrow s) * (l3 - f3)
                 + (corp e - corp s) * (l3 - f3)))
    /\ (exists ex,
          CorpFin.pl_explain s s "All" fy ly = Ok ex
          /\ CorpFin.volume_variance ex == 0
          /\ CorpFin.mix_variance ex == 0).
Proof.
  intros s e fy ly f3 f1 f5 f10 l3 l1 l5 l10 Hfy Hly.
  assert (G : forall a b,
             exists ex,
               CorpFin.pl_explain a b "All" fy ly = Ok ex
               /\ CorpFin.volume_variance ex
                  == (loans b - loans a) * f5 + (bonds b - bonds a) * f10
                     + (cash b - cash a) * f3
                     - ((deposits b - deposits a) * f1 + (borrow b - borrow a) * f3
                        + (corp b - corp a) * f3)
               /\ CorpFin.mix_variance ex
                  == (loans b - loans a) * (l5 - f5) + (bonds b - bonds a) * (l10 - f10)
                     + (cash b - cash a) * (l3 - f3)
                     - ((deposits b - deposits a) * (l1 - f1)
                        + (borrow b - borrow a) * (l3 - f3)
                        + (corp b - corp a) * (l3 - f3))).
  { intros a b.
    destruct (pl_explain_volume_and_mix a b fy ly f3 f1 f5 f10 l3 l1 l5 l10 Hfy Hly)
      as (ex & E & Hv & Hm).
    exists ex. split; [exact E|].
    destruct Hfy as (F3 & F1 & F5 & F10); destruct Hly as (L3 & L1 & L5 & L10).
    rewrite Hv, Hm.
    unfold Claimed.volume_variance, Claimed.mix_variance, Claimed.netted,
      Claimed.total, matched_assets, matched_liabs, get, qsum.
    rewrite F3, F1, F5, F10, L3, L1, L5, L10. simpl. split; ring. }
  split; [apply G|].
  destruct (G s s) as (ex & E & Hv & Hm).
  exists ex. split; [exact E|]. rewrite Hv, Hm. split; ring.
Qed.

Lemma X20_volume_and_mix_witness :
  exists ex,
    CorpFin.pl_explain default_start default_start "All" sample_fy sample_ly = Ok ex
    /\ CorpFin.volume_variance ex == 0
    /\ CorpFin.mix_variance ex == 0.
Proof.
  apply (X20_volume_and_mix_variance default_start default_end sample_fy sample_ly
           _ _ _ _ _ _ _ _ sample_fy_labels sample_ly_labels).
Defined.

(** X21. When the P&L explain fails, the [KeyError] names one of the four
    tenor labels, and that label is missing from the first or from the
    last historical row. *)
Theorem X21_pl_explain_failure_names_absent_label :
  forall (s e : inputs) (bu_choice : string) (fy ly : dict Q) (k : string),
    CorpFin.pl_explain s e bu_choice fy ly = KeyError k ->
    In k ["3M"; "1Y"; "5Y"; "10Y"]
    /\ (lookup fy k = None \/ lookup ly k = None).
Proof.
  intros s e bu fy ly k E.
  destruct (lookup fy "3M") as [f3|] eqn:F3;
  [destruct (lookup fy "1Y") as [f1|] eqn:F1;
   [destruct (lookup fy "5Y") as [f5|] eqn:F5;
    [destruct (lookup fy "10Y") as [f10|] eqn:F10;
     [destruct (lookup ly "3M") as [l3|] eqn:L3;
      [destruct (lookup ly "1Y") as [l1|] eqn:L1;
       [destruct (lookup ly "5Y") as [l5|] eqn:L5;
        [destruct (lookup ly "10Y") as [l10|] eqn:L10|]|]|]|]|]|]|].
  1:{ destruct (pl_explain_runs s e fy ly f3 f1 f5 f10 l3 l1 l5 l10
                  (conj F3 (conj F1 (conj F5 F10)))
                  (conj L3 (conj L1 (conj L5 L10))) bu) as [ex Eok].
      rewrite Eok in E. discriminate E. }
  all: revert E; unfold CorpFin.pl_explain;
    destruct (CorpFin.make_sheet s s) as [df0|k0] eqn:Es;
      [|simpl in Es; discriminate Es];
    destruct (CorpFin.make_sheet e e) as [df1|k1] eqn:Ee;
      [|simpl in Ee; discriminate Ee];
    cbv beta iota zeta delta [bind];
    unfold CorpFin.rate_map, yield_codes; simpl dict_comp; unfold getitem;
    simpl lookup at 1;
    rewrite ?F3, ?F1, ?F5, ?F10, ?L3, ?L1, ?L5, ?L10;
    cbv beta iota zeta delta [bind];
    rewrite ?F3, ?F1, ?F5, ?F10, ?L3, ?L1, ?L5, ?L10;
    intro E; injection E as <-;
    (split; [simpl; auto 6 | (left; assumption) || (right; assumption)]).
Qed.

Lemma X21_pl_explain_failure_witness :
  In "5Y" ["3M"; "1Y"; "5Y"; "10Y"]
  /\ (lookup [("3M", 5 # 100); ("1Y", 3 # 100)] "5Y" = None
      \/ lookup sample_ly "5Y" = None).
Proof.
  apply (X21_pl_explain_failure_names_absent_label default_start default_end "All"
           [("3M", 5 # 100); ("1Y", 3 # 100)] sample_ly "5Y").
  reflexivity.
Defined.

(* ===================================================================== *)
(** ** corp_fin.py: the CCAR / ICAAP projection table *)
(* ===================================================================== *)

Lemma round_n_2_is_round2 (q : Q) : round_n 2 q = round2 q.
Proof. reflexivity. Qed.

Lemma pow10_pos (d : nat) : 0 < inject_Z (10 ^ Z.of_nat d).
Proof.
  change 0 with (inject_Z 0). rewrite <- Zlt_Qlt.
  apply Z.pow_pos_nonneg; lia.
Qed.

(** Rounding to [d] decimals leaves a multiple of 10^-d unchanged. *)
Lemma round_n_exact (d : nat) (q : Q) (z : Z) :
  q * inject_Z (10 ^ Z.of_nat d) == inject_Z z -> round_n d q == q.
Proof.
  intro H. unfold round_n.
  rewrite (round_half_even_comp _ _ H), round_half_even_of_Z, <- H.
  pose proof (pow10_pos d) as Hp.
  field. intro H0. rewrite H0 in Hp. discriminate Hp.
Qed.

Lemma proj_loop_rows (base_nii gdp unemp prov : Q) (labels : list string) :
  forall (start j : nat) (r : CorpFin.proj_row),
    nth_error (CorpFin.proj_loop base_nii gdp unemp prov start labels) j = Some r ->
    exists label,
      nth_error labels j = Some label
      /\ r = CorpFin.proj_entry base_nii gdp unemp prov (start + j) label.
Proof.
  induction labels as [|l labels IH]; intros start j r H.
  - destruct j; discriminate H.
  - destruct j as [|j]; simpl in H.
    + injection H as <-. exists l. split; [reflexivity|].
      rewrite Nat.add_0_r. reflexivity.
    + destruct (IH (S start) j r H) as (label & Hl & Hr).
      exists label. split; [exact Hl|].
      rewrite Hr. f_equal. lia.
Qed.

Lemma proj_loop_periods (base_nii gdp unemp prov : Q) (labels : list string) :
  forall start,
    map CorpFin.Period (CorpFin.proj_loop base_nii gdp unemp prov start labels)
    = labels.
Proof.
  induction labels as [|l labels IH]; intro start; simpl.
  - reflexivity.
  - rewrite IH. reflexivity.
Qed.

Lemma proj_loop_entries (base_nii gdp unemp prov : Q) (labels : list string) :
  forall start r,
    In r (CorpFin.proj_loop base_nii gdp unemp prov start labels) ->
    exists k label, r = CorpFin.proj_entry base_nii gdp unemp prov k label.
Proof.
  induction labels as [|l labels IH]; intros start r H.
  - destruct H.
  - cbn [CorpFin.proj_loop] in H. destruct H as [<-|H].
    + exists start, l. reflexivity.
    + exact (IH _ _ H).
Qed.

(** X22. The projection table has one row per period label, in order.  The
    NII, the provisions and the pre-tax P/L do not depend on the period:
    any two rows show the same three numbers.  Before rounding, provisions
    plus pre-tax P/L is the NII; as displayed, each of the three columns is
    within 0.005 of its unrounded value, and the three columns add up
    within 0.015. *)
Theorem X22_projection_rows_add_up :
  forall (base_nii gdp_growth unemp_rate prov_pct : Q) (labels : list string),
    map CorpFin.Period
        (CorpFin.proj_data base_nii gdp_growth unemp_rate prov_pct labels)
    = labels
    /\ CorpFin.provisions base_nii gdp_growth unemp_rate prov_pct
       + CorpFin.pre_tax_pl base_nii gdp_growth unemp_rate prov_pct
       == CorpFin.nii_proj base_nii gdp_growth unemp_rate
    /\ (forall r r',
          In r (CorpFin.proj_data base_nii gdp_growth unemp_rate prov_pct labels) ->
          In r' (CorpFin.proj_data base_nii gdp_growth unemp_rate prov_pct labels) ->
          CorpFin.pNII r = CorpFin.pNII r'
          /\ CorpFin.Provisions r = CorpFin.Provisions r'
          /\ CorpFin.PreTax r = CorpFin.PreTax r')
    /\ Forall (fun r =>
                 - (1 # 200)
                 <= CorpFin.pNII r
                    - CorpFin.nii_proj base_nii gdp_growth unemp_rate
                 <= 1 # 200
                 /\ - (1 # 200)
                    <= CorpFin.Provisions r
                       - CorpFin.provisions base_nii gdp_growth unemp_rate prov_pct
                    <= 1 # 200
                 /\ - (1 # 200)
                    <= CorpFin.PreTax r
                       - CorpFin.pre_tax_pl base_nii gdp_growth unemp_rate prov_pct
                    <= 1 # 200
                 /\ - (3 # 200)
                    <= CorpFin.Provisions r + CorpFin.PreTax r - CorpFin.pNII r
                    <= 3 # 200)
              (CorpFin.proj_data base_nii gdp_growth unemp_rate prov_pct labels).
Proof.
  intros b g u p labels. unfold CorpFin.proj_data.
  split; [apply proj_loop_periods|].
  assert (Hsum : CorpFin.provisions b g u p + CorpFin.pre_tax_pl b g u p
                 == CorpFin.nii_proj b g u)
    by (unfold CorpFin.pre_tax_pl; ring).
  split; [exact Hsum|].
  split.
  - intros r r' Hr Hr'.
    destruct (proj_loop_entries b g u p labels _ _ Hr) as (k & l & ->).
    destruct (proj_loop_entries b g u p labels _ _ Hr') as (k' & l' & ->).
    repeat split; reflexivity.
  - apply Forall_forall. intros r Hr.
    destruct (proj_loop_entries b g u p labels _ _ Hr) as (k & l & ->).
    unfold CorpFin.proj_entry.
    cbn [CorpFin.pNII CorpFin.Provisions CorpFin.PreTax].
    change (round_n 2 (CorpFin.nii_proj b g u))
      with (round2 (CorpFin.nii_proj b g u)).
    change (round_n 2 (CorpFin.provisions b g u p))
      with (round2 (CorpFin.provisions b g u p)).
    change (round_n 2 (CorpFin.pre_tax_pl b g u p))
      with (round2 (CorpFin.pre_tax_pl b g u p)).
    pose proof (round2_error (CorpFin.nii_proj b g u)) as [E1 E2].
    pose proof (round2_error (CorpFin.provisions b g u p)) as [E3 E4].
    pose proof (round2_error (CorpFin.pre_tax_pl b g u p)) as [E5 E6].
    repeat split; lra.
Qed.

Lemma of_nat_Q_le (i n : nat) :
  (i <= n)%nat -> inject_Z (Z.of_nat i) <= inject_Z (Z.of_nat n).
Proof. intro H. rewrite <- Zle_Qle. lia. Qed.

Lemma of_nat_Q_lt (i n : nat) :
  (n < i)%nat -> inject_Z (Z.of_nat n) < inject_Z (Z.of_nat i).
Proof. intro H. rewrite <- Zlt_Qlt. lia. Qed.

Lemma ratio_floor (floor top slope : Q) (cut : nat) (i : nat) :
  top - slope * inject_Z (Z.of_nat cut) == floor -> 0 < slope ->
  pymax floor (top - slope * inject_Z (Z.of_nat i))
  == if (i <=? cut)%nat then top - slope * inject_Z (Z.of_nat i) else floor.
Proof.
  intros Hcut Hs. unfold pymax.
  destruct (Qlt_le_dec floor (top - slope * inject_Z (Z.of_nat i))) as [Hlt|Hle];
    destruct (Nat.leb_spec i cut) as [Hi|Hi]; try reflexivity.
  - exfalso. apply of_nat_Q_lt in Hi.
    assert (slope * inject_Z (Z.of_nat cut) < slope * inject_Z (Z.of_nat i))
      by (apply Qmult_lt_l; assumption).
    lra.
  - apply of_nat_Q_le in Hi.
    assert (slope * inject_Z (Z.of_nat i) <= slope * inject_Z (Z.of_nat cut))
      by (apply Qmult_le_l; assumption).
    lra.
Qed.

Lemma round_n_comp (d : nat) (q q' : Q) : q == q' -> round_n d q = round_n d q'.
Proof.
  intro H. unfold round_n.
  rewrite (round_half_even_comp (q * inject_Z (10 ^ Z.of_nat d))
             (q' * inject_Z (10 ^ Z.of_nat d))); [reflexivity|].
  rewrite H. reflexivity.
Qed.

(** A ratio of the table with its floor, as displayed with [d] decimals:
    the value on the line until period [cut], the floor after it. *)
Lemma displayed_ratio (d : nat) (floor top slope : Q) (cut i : nat) (zf zt zs : Z) :
  top - slope * inject_Z (Z.of_nat cut) == floor -> 0 < slope ->
  floor * inject_Z (10 ^ Z.of_nat d) == inject_Z zf ->
  top * inject_Z (10 ^ Z.of_nat d) == inject_Z zt ->
  slope * inject_Z (10 ^ Z.of_nat d) == inject_Z zs ->
  round_n d (pymax floor (top - slope * inject_Z (Z.of_nat i)))
  == if (i <=? cut)%nat then top - slope * inject_Z (Z.of_nat i) else floor.
Proof.
  intros Hcut Hs Hf Ht Hsl.
  rewrite (round_n_comp d _ _ (ratio_floor floor top slope cut i Hcut Hs)).
  destruct (i <=? cut)%nat.
  - apply (round_n_exact d _ (zt + - (zs * Z.of_nat i))).
    rewrite inject_Z_plus, inject_Z_opp, inject_Z_mult, <- Ht, <- Hsl. ring.
  - apply (round_n_exact d _ zf). exact Hf.
Qed.

(** X23. The four ratios of the projection table, as displayed, for the
    row of period number j (from 0): CET1 is 0.12 - 0.005 j up to period 16
    and 0.04 after; Tier 1 is 0.13 - 0.004 j up to period 20 and 0.05 after;
    LCR is 100 - 2 j up to period 25 and 50 after; NSFR is 100 - j up to
    period 50 and 50 after.  Rounding to 4 and to 1 decimals changes none
    of them. *)
Theorem X23_projection_ratios :
  forall (base_nii gdp_growth unemp_rate prov_pct : Q) (labels : list string)
         (j : nat) (r : CorpFin.proj_row),
    nth_error (CorpFin.proj_data base_nii gdp_growth unemp_rate prov_pct labels) j
    = Some r ->
    nth_error labels j = Some (CorpFin.Period r)
    /\ CorpFin.CET1 r
       == (if (j <=? 16)%nat
           then (12 # 100) - (5 # 1000) * inject_Z (Z.of_nat j) else 4 # 100)
    /\ CorpFin.Tier1 r
       == (if (j <=? 20)%nat
           then (13 # 100) - (4 # 1000) * inject_Z (Z.of_nat j) else 5 # 100)
    /\ CorpFin.LCR r
       == (if (j <=? 25)%nat then 100 - 2 * inject_Z (Z.of_nat j) else 50)
    /\ CorpFin.NSFR r
       == (if (j <=? 50)%nat then 100 - 1 * inject_Z (Z.of_nat j) else 50).
Proof.
  intros b g u p labels j r H.
  destruct (proj_loop_rows b g u p labels 0 j r H) as (label & Hl & ->).
  simpl Nat.add. unfold CorpFin.proj_entry.
  cbn [CorpFin.Period CorpFin.CET1 CorpFin.Tier1 CorpFin.LCR CorpFin.NSFR].
  split; [exact Hl|].
  unfold CorpFin.cet1_ratio, CorpFin.tier1_ratio, CorpFin.lcr, CorpFin.nsfr.
  split; [|split; [|split]].
  - apply (displayed_ratio 4 (4 # 100) (12 # 100) (5 # 1000) 16 j 400 1200 50);
      reflexivity.
  - apply (displayed_ratio 4 (5 # 100) (13 # 100) (4 # 1000) 20 j 500 1300 40);
      reflexivity.
  - apply (displayed_ratio 1 50 100 2 25 j 500 1000 20); reflexivity.
  - apply (displayed_ratio 1 50 100 1 50 j 500 1000 10); reflexivity.
Qed.

Lemma X23_projection_ratios_witness :
  exists r,
    nth_error (CorpFin.proj_data (35 # 10) 2 5 10
                 ["2026-Q4"; "2027-Q1"; "2027-Q2"]) 2 = Some r
    /\ CorpFin.CET1 r
       == (if (2 <=? 16)%nat
           then (12 # 100) - (5 # 1000) * inject_Z (Z.of_nat 2) else 4 # 100).
Proof.
  eexists. split; [reflexivity|].
  apply (X23_projection_ratios (35 # 10) 2 5 10
           ["2026-Q4"; "2027-Q1"; "2027-Q2"] 2).
  reflexivity.
Defined.

(* ===================================================================== *)
(** ** The rate-shock shift chosen in the sidebar *)
(* ===================================================================== *)

Lemma preset_values (name : string) (v : Q) :
  lookup Corp3.preset name = Some v -> - (3 # 100) <= v <= 3 # 100.
Proof.
  unfold Corp3.preset. cbn [lookup].
  repeat (match goal with
          | |- context [String.eqb name ?k] => destruct (String.eqb name k)
          end;
          [intro H; injection H as <-; split; discriminate|]).
  discriminate.
Qed.

(** X24. With the slider between -300 and 300 bp, the rate-shock shift of
    corp.py and corp3.py is either computed and lies between -0.03 and
    0.03, or the scenario is neither 'Custom' nor a preset and the lookup
    raises [KeyError] with its name. *)
Theorem X24_rate_shock_shift_is_bounded :
  forall (scenario_name : string) (slider : Z),
    (-300 <= slider <= 300)%Z ->
    Corp.shift scenario_name slider = Corp3.base_shift scenario_name slider
    /\ ((exists s, Corp3.base_shift scenario_name slider = Ok s
                   /\ - (3 # 100) <= s <= 3 # 100)
        \/ (Corp3.base_shift scenario_name slider = KeyError scenario_name
            /\ scenario_name <> "Custom"
            /\ lookup Corp3.preset scenario_name = None)).
Proof.
  intros name slider [Hlo Hhi]. split; [reflexivity|].
  unfold Corp3.base_shift.
  destruct (String.eqb_spec name "Custom") as [->|Hne].
  - left. eexists. split; [reflexivity|].
    rewrite Zle_Qle in Hlo. rewrite Zle_Qle in Hhi.
    split.
    + apply Qle_shift_div_l; [reflexivity|].
      setoid_replace (- (3 # 100) * 10000) with (inject_Z (-300)) by reflexivity.
      exact Hlo.
    + apply Qle_shift_div_r; [reflexivity|].
      setoid_replace ((3 # 100) * 10000) with (inject_Z 300) by reflexivity.
      exact Hhi.
  - unfold getitem. destruct (lookup Corp3.preset name) as [v|] eqn:E.
    + left. exists v. split; [reflexivity|]. apply (preset_values name v E).
    + right. repeat split; auto.
Qed.

Lemma X24_rate_shock_shift_witness :
  (exists s, Corp3.base_shift "Custom" 125 = Ok s /\ - (3 # 100) <= s <= 3 # 100)
  \/ (Corp3.base_shift "Custom" 125 = KeyError "Custom"
      /\ "Custom" <> "Custom"
      /\ lookup Corp3.preset "Custom" = None).
Proof.
  apply (X24_rate_shock_shift_is_bounded "Custom" 125). lia.
Defined.
